(** * Excel mapper: key normalisation, value coercion and the mapping loop

    A shallow embedding of [excel_mapper_app.py]: the three helper functions
    [normalize], [to_number], [write_to_cell] and the ETL block that loads the
    source rows and walks the mapping sheet.

    Conventions of the model.
    - Python text is a [string] holding the UTF-8 bytes of the text.  Every
      byte of a code point above U+007F is at least 128, so byte-wise
      containment, replacement of a whole code point and removal of bytes
      outside [a-z] agree with the same operations on code points.
    - Where Python consults Unicode tables the model has them, as of
      Unicode 14.0: the decimal digits of the regex class [\d], [int] and
      [float], and the white space of [str.strip], [int] and [float].
      [str.lower] is written out for the ASCII range and the two code points
      above it whose lowercase form contains an ASCII letter.
    - Python floats are binary64 values of [spec_float] (precision 53,
      exponent bound 1024); Python integers are [Z].
    - Exceptions are values of [exn]; a computation that may raise returns
      [result].
    - A worksheet is a finite map from (row, column) to cell values together
      with its merged ranges; the behaviour of the spreadsheet library
      (cell creation on access, row bounds, containment of an address in a
      range) is written out where the program relies on it. *)

From Stdlib Require Import ZArith Ascii String Bool List Lia.
From Stdlib Require Import Numbers.DecimalString Numbers.DecimalPos.
From Stdlib Require Import Floats.SpecFloat.
From stdpp Require Import base option list gmap strings fin_maps.

Local Open Scope Z_scope.

(** ** Exceptions and fallible computations *)

Inductive exn : Type :=
| ValueError
| OverflowError
| TypeError
| KeyError.

Inductive result (A : Type) : Type :=
| Ok (a : A)
| Raise (e : exn).

Arguments Ok {A} a.
Arguments Raise {A} e.

Definition rbind {A B : Type} (m : result A) (k : A -> result B) : result B :=
  match m with
  | Ok a => k a
  | Raise e => Raise e
  end.

#[global] Instance result_ret : MRet result := fun A a => Ok a.
#[global] Instance result_bind : MBind result := fun A B k m => rbind m k.

Definition is_ok {A : Type} (m : result A) : bool :=
  match m with Ok _ => true | Raise _ => false end.

(** ** Text primitives *)

Module Text.

Definition is_az (c : ascii) : bool :=
  let n := nat_of_ascii c in Nat.leb 97 n && Nat.leb n 122.

Definition is_upper (c : ascii) : bool :=
  let n := nat_of_ascii c in Nat.leb 65 n && Nat.leb n 90.

Definition is_digit (c : ascii) : bool :=
  let n := nat_of_ascii c in Nat.leb 48 n && Nat.leb n 57.

Definition is_ascii (c : ascii) : bool := Nat.ltb (nat_of_ascii c) 128.

Definition lower_ascii (c : ascii) : ascii :=
  if is_upper c then ascii_of_nat (nat_of_ascii c + 32) else c.

(** [str.lower()].  ASCII capitals are shifted; U+212A KELVIN SIGN (bytes
    226 132 170) becomes [k] and U+0130 (bytes 196 176) becomes [i] followed
    by U+0307 (bytes 204 135).  Every other code point above U+007F
    lowercases to code points above U+007F; its bytes are kept as they
    are. *)
Fixpoint lower (s : string) : string :=
  match s with
  | String "226" (String "132" (String "170" r)) => String "k" (lower r)
  | String "196" (String "176" r) =>
      String "i" (String "204" (String "135" (lower r)))
  | String c r => String (lower_ascii c) (lower r)
  | EmptyString => EmptyString
  end.

(** [re.sub] with the pattern [[^a-z]] and the empty replacement: every
    character outside [a-z] is dropped. *)
Fixpoint re_sub_non_az (text : string) : string :=
  match text with
  | EmptyString => EmptyString
  | String c r => if is_az c then String c (re_sub_non_az r) else re_sub_non_az r
  end.

(** [needle in hay] for two strings. *)
Fixpoint contains (needle hay : string) : bool :=
  String.prefix needle hay ||
  match hay with
  | EmptyString => false
  | String _ hay' => contains needle hay'
  end.

(** [text.replace] of a non-empty [old] by nothing: occurrences are removed
    left to right without overlap.  [skip] counts the bytes of the current
    occurrence still to be dropped. *)
Fixpoint remove_from (old : string) (skip : nat) (text : string) : string :=
  match text with
  | EmptyString => EmptyString
  | String c r =>
      match skip with
      | S k => remove_from old k r
      | O =>
          if String.prefix old text
          then remove_from old (Nat.pred (String.length old)) r
          else String c (remove_from old O r)
      end
  end.

Definition remove_all (old text : string) : string := remove_from old O text.

Definition byte (c : ascii) : Z := Z.of_nat (nat_of_ascii c).

(** The six payload bits of a continuation byte. *)
Definition continuation (c : ascii) : option Z :=
  let n := byte c in
  if (128 <=? n) && (n <? 192) then Some (n - 128) else None.

(** The code point at the start of a text, with the number of bytes that
    follow its first byte.  A byte sequence that encodes nothing decodes to
    nothing. *)
Definition decode (s : string) : option (Z * nat) :=
  match s with
  | EmptyString => None
  | String c r =>
      let n := byte c in
      if n <? 128 then Some (n, 0%nat)
      else if n <? 192 then None
      else if n <? 224 then
        match r with
        | String c1 _ =>
            x1 ← continuation c1; Some ((n - 192) * 64 + x1, 1%nat)
        | _ => None
        end
      else if n <? 240 then
        match r with
        | String c1 (String c2 _) =>
            x1 ← continuation c1; x2 ← continuation c2;
            Some (((n - 224) * 64 + x1) * 64 + x2, 2%nat)
        | _ => None
        end
      else if n <? 248 then
        match r with
        | String c1 (String c2 (String c3 _)) =>
            x1 ← continuation c1; x2 ← continuation c2; x3 ← continuation c3;
            Some ((((n - 240) * 64 + x1) * 64 + x2) * 64 + x3, 3%nat)
        | _ => None
        end
      else None
  end.

(** The code points of the digit zero of every script: the decimal digits
    are the ten code points from each of them on, in the order of their
    values. *)
Definition decimal_zeros : list Z :=
  [ 48; 1632; 1776; 1984; 2406; 2534; 2662; 2790; 2918; 3046; 3174; 3302;
    3430; 3558; 3664; 3792; 3872; 4160; 4240; 6112; 6160; 6470; 6608; 6784;
    6800; 6992; 7088; 7232; 7248; 42528; 43216; 43264; 43472; 43504; 43600;
    44016; 65296; 66720; 68912; 69734; 69872; 69942; 70096; 70384; 70736;
    70864; 71248; 71360; 71472; 71904; 72016; 72784; 73040; 73120; 92768;
    92864; 93008; 120782; 120792; 120802; 120812; 120822; 123200; 123632;
    125264; 130032 ].

(** The value of a code point as a decimal digit. *)
Definition decimal_digit (cp : Z) : option Z :=
  match List.find (fun z => (z <=? cp) && (cp <? z + 10)) decimal_zeros with
  | Some z => Some (cp - z)
  | None => None
  end.

(** White space as [str.isspace] has it. *)
Definition is_space_cp (cp : Z) : bool :=
  ((9 <=? cp) && (cp <=? 13)) || ((28 <=? cp) && (cp <=? 32)) ||
  (cp =? 133) || (cp =? 160) || (cp =? 5760) ||
  ((8192 <=? cp) && (cp <=? 8202)) || (cp =? 8232) || (cp =? 8233) ||
  (cp =? 8239) || (cp =? 8287) || (cp =? 12288).


(** The decimal digit at the start of a text: its value and the number of
    bytes after its first one. *)
Definition digit_at (s : string) : option (Z * nat) :=
  '(cp, k) ← decode s; d ← decimal_digit cp; Some (d, k).

(** The white space at the start of a text: the number of bytes after its
    first one. *)
Definition space_at (s : string) : option nat :=
  '(cp, k) ← decode s; if is_space_cp cp then Some k else None.

(** [skip] counts the bytes of the current code point still to be passed
    over. *)
Fixpoint lstrip_from (skip : nat) (s : string) : string :=
  match s with
  | EmptyString => EmptyString
  | String _ r =>
      match skip with
      | S k => lstrip_from k r
      | O =>
          match space_at s with
          | Some k => lstrip_from k r
          | None => s
          end
      end
  end.

Definition lstrip (s : string) : string := lstrip_from O s.

(** [rstrip] drops the end of the text from the first position after which
    only white space follows. *)
Fixpoint rstrip (s : string) : string :=
  match s with
  | EmptyString => EmptyString
  | String c r =>
      match lstrip s with
      | EmptyString => EmptyString
      | _ => String c (rstrip r)
      end
  end.

(** [str.strip()]. *)
Definition strip (s : string) : string := rstrip (lstrip s).

(** White space as the number parsers of [int] and [float] skip it around
    an ASCII text: TAB, LF, VT, FF, CR and the space. *)
Definition is_c_space (c : ascii) : bool :=
  let n := nat_of_ascii c in
  (Nat.leb 9 n && Nat.leb n 13) || Nat.eqb n 32.

Fixpoint c_lstrip (s : string) : string :=
  match s with
  | String c r => if is_c_space c then c_lstrip r else s
  | EmptyString => EmptyString
  end.

(** A character is kept when it is no space or when something remains
    after it. *)
Fixpoint c_rstrip (s : string) : string :=
  match s with
  | EmptyString => EmptyString
  | String c r =>
      match c_rstrip r with
      | EmptyString =>
          if is_c_space c then EmptyString else String c EmptyString
      | r' => String c r'
      end
  end.

Definition c_strip (s : string) : string := c_rstrip (c_lstrip s).

Fixpoint all_chars (p : ascii -> bool) (s : string) : bool :=
  match s with
  | EmptyString => true
  | String c r => p c && all_chars p r
  end.

Fixpoint any_char (p : ascii -> bool) (s : string) : bool :=
  match s with
  | EmptyString => false
  | String c r => p c || any_char p r
  end.

(** Every code point of the text is a decimal digit. *)
Fixpoint all_decimal_from (skip : nat) (s : string) : bool :=
  match s with
  | EmptyString => true
  | String _ r =>
      match skip with
      | S k => all_decimal_from k r
      | O =>
          match digit_at s with
          | Some (_, k) => all_decimal_from k r
          | None => false
          end
      end
  end.

Definition all_decimal (s : string) : bool := all_decimal_from O s.


Definition digit_char (d : Z) : ascii := ascii_of_nat (48 + Z.to_nat d).

(** What [int] and [float] do to a text that is not all ASCII before they
    parse it: a code point below 127 is kept, white space becomes a space,
    a decimal digit becomes the ASCII digit of its value, and the text ends
    in a question mark at the first code point of another kind. *)
Fixpoint to_ascii_from (skip : nat) (s : string) : string :=
  match s with
  | EmptyString => EmptyString
  | String c r =>
      match skip with
      | S k => to_ascii_from k r
      | O =>
          match decode s with
          | Some (cp, k) =>
              if cp <? 127 then String c (to_ascii_from k r)
              else if is_space_cp cp then String " " (to_ascii_from k r)
              else
                match decimal_digit cp with
                | Some d => String (digit_char d) (to_ascii_from k r)
                | None => "?"
                end
          | None => "?"
          end
      end
  end.

(** An ASCII text is parsed as it is. *)
Definition to_ascii (s : string) : string :=
  if all_chars is_ascii s then s else to_ascii_from O s.

End Text.

(** ** Binary64 floats *)

Module Float.

Definition prec : Z := 53.
Definition emax : Z := 1024.

Definition zero : spec_float := S754_zero false.

(** [float(n)] for a Python integer: the nearest binary64 value, ties to
    even; an integer that rounds past the largest finite float raises
    [OverflowError]. *)
Definition of_int (n : Z) : result spec_float :=
  match binary_normalize prec emax n 0 false with
  | S754_infinity _ => Raise OverflowError
  | x => Ok x
  end.

(** The binary64 value nearest to [digits / 10 ^ scale], ties to even, with
    the sign [neg]; this is what [float] returns for a decimal literal. *)
Definition of_decimal (neg : bool) (digits : Z) (scale : Z) : spec_float :=
  match digits with
  | Zpos p =>
      let '(q, e, l) :=
        SFdiv_core_binary prec emax (Zpos p) 0 (10 ^ scale) 0 in
      binary_round_aux prec emax neg q e l
  | _ => S754_zero neg
  end.

Definition mul (x y : spec_float) : spec_float := SFmul prec emax x y.

(** Truth value of a float: [x != 0.0]. *)
Definition nonzero (x : spec_float) : bool :=
  match x with
  | S754_zero _ => false
  | _ => true
  end.

(** The integer nearest to [m / d], ties to the even one. *)
Definition div_half_even (m d : Z) : Z :=
  let q := m / d in
  let r := m mod d in
  match 2 * r ?= d with
  | Lt => q
  | Gt => q + 1
  | Eq => if Z.even q then q else q + 1
  end.

(** [round(x)] with one argument: the nearest integer, ties to even;
    infinities raise [OverflowError] and NaN raises [ValueError]. *)
Definition round (x : spec_float) : result Z :=
  match x with
  | S754_zero _ => Ok 0
  | S754_infinity _ => Raise OverflowError
  | S754_nan => Raise ValueError
  | S754_finite s m e =>
      let a := if 0 <=? e then Zpos m * 2 ^ e
               else div_half_even (Zpos m) (2 ^ (- e)) in
      Ok (if s then - a else a)
  end.

(** [int(x)] for a float: truncation towards zero, with the same
    exceptions as [round]. *)
Definition trunc (x : spec_float) : result Z :=
  match x with
  | S754_zero _ => Ok 0
  | S754_infinity _ => Raise OverflowError
  | S754_nan => Raise ValueError
  | S754_finite s m e =>
      let a := if 0 <=? e then Zpos m * 2 ^ e else Zpos m / 2 ^ (- e) in
      Ok (if s then - a else a)
  end.


End Float.

(** ** Cell values *)

(** What a cell with a date or time format holds: a [datetime.datetime],
    a [datetime.date], a [datetime.time] or a [datetime.timedelta], each by
    its fields. *)
Inductive temporal : Type :=
| DateTime (year month day hour minute second microsecond : Z)
| Date (year month day : Z)
| Time (hour minute second microsecond : Z)
| TimeDelta (days seconds microseconds : Z).

(** The values a cell of a loaded workbook holds: empty, boolean, integer,
    float, text, or a date or time. *)
Inductive value : Type :=
| VNone
| VBool (b : bool)
| VInt (n : Z)
| VFloat (x : spec_float)
| VStr (s : string)
| VTemporal (t : temporal).

(** Only a duration can be false: the one of length zero. *)
Definition temporal_truthy (t : temporal) : bool :=
  match t with
  | TimeDelta d s us => negb ((d =? 0) && (s =? 0) && (us =? 0))
  | _ => true
  end.

(** Python truthiness, as tested by [if key:] and [not map_key]. *)
Definition truthy (v : value) : bool :=
  match v with
  | VNone => false
  | VBool b => b
  | VInt n => negb (n =? 0)
  | VFloat x => Float.nonzero x
  | VStr s => negb (String.eqb s EmptyString)
  | VTemporal t => temporal_truthy t
  end.

Fixpoint zeros (n : nat) : string :=
  match n with
  | O => EmptyString
  | S k => String "0" (zeros k)
  end.

(** [n] in decimal, as [%d] prints it. *)
Definition decimal (n : Z) : string := NilZero.string_of_int (Z.to_int n).

(** [n] in decimal, filled with zeros on the left up to [width]
    characters, as [%02d], [%04d] and [%06d] print a field. *)
Definition pad (width : nat) (n : Z) : string :=
  let t := decimal n in zeros (width - String.length t) +:+ t.

Definition fraction_text (microsecond : Z) : string :=
  if microsecond =? 0 then EmptyString else "." +:+ pad 6 microsecond.

Definition date_text (year month day : Z) : string :=
  pad 4 year +:+ "-" +:+ pad 2 month +:+ "-" +:+ pad 2 day.

Definition clock_text (hour minute second microsecond : Z) : string :=
  pad 2 hour +:+ ":" +:+ pad 2 minute +:+ ":" +:+ pad 2 second +:+
  fraction_text microsecond.

(** [str(t)] for a date or time. *)
Definition temporal_text (t : temporal) : string :=
  match t with
  | DateTime y mo d h mi s us =>
      date_text y mo d +:+ " " +:+ clock_text h mi s us
  | Date y mo d => date_text y mo d
  | Time h mi s us => clock_text h mi s us
  | TimeDelta d s us =>
      let mm := s / 60 in
      let clock :=
        decimal (mm / 60) +:+ ":" +:+ pad 2 (mm mod 60) +:+ ":" +:+
        pad 2 (s mod 60) in
      (if d =? 0 then EmptyString
       else decimal d +:+ (if Z.abs d =? 1 then " day, " else " days, "))
      +:+ clock +:+ fraction_text us
  end.

(** A cell is empty when it holds nothing or the empty text. *)
Definition is_empty (v : value) : bool :=
  match v with
  | VNone => true
  | VStr s => String.eqb s EmptyString
  | _ => false
  end.

(** ** The regular expression of [to_number] *)

Module Regex.

Import Text.

(** The longest prefix of decimal digits and what follows it: the greedy
    [\d*].  [skip] counts the bytes of the current digit still to be
    taken. *)
Fixpoint span_from (skip : nat) (s : string) : string * string :=
  match s with
  | EmptyString => (EmptyString, EmptyString)
  | String c r =>
      match skip with
      | S k => let '(ds, rest) := span_from k r in (String c ds, rest)
      | O =>
          match digit_at s with
          | Some (_, k) =>
              let '(ds, rest) := span_from k r in (String c ds, rest)
          | None => (EmptyString, s)
          end
      end
  end.

Definition span_digits (s : string) : string * string := span_from O s.

(** The optional group [(\.\d+)?] tried at [s]. *)
Definition match_fraction (s : string) : string :=
  match s with
  | String c r =>
      if Ascii.eqb c "." then
        match fst (span_digits r) with
        | EmptyString => EmptyString
        | fs => String "." fs
        end
      else EmptyString
  | EmptyString => EmptyString
  end.

(** [\d+(\.\d+)?] anchored at the start of [s]. *)
Definition match_unsigned (s : string) : option string :=
  let '(ds, rest) := span_digits s in
  match ds with
  | EmptyString => None
  | _ => Some (ds +:+ match_fraction rest)
  end.

(** [-?\d+(\.\d+)?] anchored at the start of [s].  When [s] starts with a
    minus sign not followed by a digit, the alternative without the sign
    fails as well, since a minus sign is no digit. *)
Definition match_number (s : string) : option string :=
  match s with
  | String c r =>
      if Ascii.eqb c "-" then
        match match_unsigned r with
        | Some m => Some (String "-" m)
        | None => None
        end
      else match_unsigned s
  | EmptyString => None
  end.

(** [re.search(r"-?\d+(\.\d+)?", text)]: the match at the leftmost position
    that admits one; the result is [match.group()]. *)
Fixpoint re_search_number (text : string) : option string :=
  match match_number text with
  | Some m => Some m
  | None =>
      match text with
      | EmptyString => None
      | String _ r => re_search_number r
      end
  end.

Fixpoint digits_value (acc : Z) (s : string) : Z :=
  match s with
  | EmptyString => acc
  | String c r => digits_value (10 * acc + (Z.of_nat (nat_of_ascii c) - 48)) r
  end.

(** The sign of a matched or stripped number text and what follows it. *)
Definition split_minus (m : string) : bool * string :=
  match m with
  | String c r => if Ascii.eqb c "-" then (true, r) else (false, m)
  | EmptyString => (false, m)
  end.

(** The digits after the decimal point of what follows the integer part. *)
Definition fraction_digits (rest : string) : string :=
  match rest with
  | String c r => if Ascii.eqb c "." then r else EmptyString
  | EmptyString => EmptyString
  end.

(** [float(m)] for a text [m] of the shape [-?\d+(\.\d+)?]: the digits
    are brought to ASCII, then the sign, the integer part and the fraction
    are read. *)
Definition float_of_match (m : string) : spec_float :=
  let '(neg, body) := split_minus (to_ascii m) in
  let '(ip, rest) := span_digits body in
  let fp := fraction_digits rest in
  Float.of_decimal neg (digits_value 0 (ip +:+ fp))
    (Z.of_nat (String.length fp)).

End Regex.

(** ** Value coercion *)

(** The last five lines of [to_number], from the text of the value on. *)
Definition number_in (s : string) : spec_float :=
  let text := Text.strip (Text.remove_all "₹" (Text.remove_all "," s)) in
  match Regex.re_search_number text with
  | Some m => Regex.float_of_match m
  | None => Float.zero
  end.

(** [to_number].  A boolean is an instance of [int]; a value that is
    neither absent nor a number is read from its text.  The integer [0] of
    the two fallback branches is represented by the float [+0.0], to which
    it is equal and with which it multiplies to the same float. *)
Definition to_number (v : value) : result spec_float :=
  match v with
  | VNone => Ok Float.zero
  | VBool b => Float.of_int (if b then 1 else 0)
  | VInt n => Float.of_int n
  | VFloat x => Ok x
  | VStr s => Ok (number_in s)
  | VTemporal t => Ok (number_in (temporal_text t))
  end.

(** The digits of a text given to [int]: they may be grouped by single
    underscores. *)
Fixpoint int_digits (acc : Z) (after_digit : bool) (s : string) : option Z :=
  match s with
  | EmptyString => if after_digit then Some acc else None
  | String c r =>
      if Text.is_digit c
      then int_digits (10 * acc + (Z.of_nat (nat_of_ascii c) - 48)) true r
      else if Ascii.eqb c "_" && after_digit then int_digits acc false r
      else None
  end.

Definition split_sign (t : string) : bool * string :=
  match t with
  | String c r =>
      if Ascii.eqb c "-" then (true, r)
      else if Ascii.eqb c "+" then (false, r)
      else (false, t)
  | EmptyString => (false, t)
  end.

(** The largest number of digits [int] converts. *)
Definition max_str_digits : nat := 4300.

Fixpoint count_digits (s : string) : nat :=
  match s with
  | EmptyString => O
  | String c r =>
      if Text.is_digit c then S (count_digits r) else count_digits r
  end.

(** [int(s)] for a text: the text is brought to ASCII, the white space
    around it is dropped and one sign is allowed; a text that is no number
    or has more than [max_str_digits] digits raises [ValueError]. *)
Definition int_of_str (s : string) : result Z :=
  let '(neg, body) := split_sign (Text.c_strip (Text.to_ascii s)) in
  match int_digits 0 false body with
  | Some n =>
      if Nat.leb (count_digits body) max_str_digits
      then Ok (if neg then - n else n)
      else Raise ValueError
  | None => Raise ValueError
  end.

(** [int(v)] as applied to the target-row cell. *)
Definition py_int (v : value) : result Z :=
  match v with
  | VNone => Raise TypeError
  | VBool b => Ok (if b then 1 else 0)
  | VInt n => Ok n
  | VFloat x => Float.trunc x
  | VStr s => int_of_str s
  | VTemporal _ => Raise TypeError
  end.

(** ** Worksheets *)

(** A merged range, by its corners; [last_row] and [last_col] are the
    range's largest row and column.  The anchor is ([min_row], [min_col]). *)
Record cell_range : Type := {
  min_row : Z;
  min_col : Z;
  last_row : Z;
  last_col : Z
}.

(** Cells are keyed by (row, column), columns counted from [A = 1]. *)
Record worksheet : Type := {
  cells : gmap (Z * Z) value;
  merged_cells : list cell_range
}.

Definition col_A : Z := 1.
Definition col_B : Z := 2.
Definition col_D : Z := 4.
Definition col_F : Z := 6.
Definition col_G : Z := 7.
Definition col_J : Z := 10.

(** [ws[f"X{row}"].value]; a cell that does not exist yet reads as empty. *)
Definition cell_value (ws : worksheet) (col row : Z) : value :=
  default VNone (cells ws !! (row, col)).

(** The sheet's [max_row]: the largest row that has a cell, 1 for a sheet
    without cells. *)
Definition max_row (ws : worksheet) : Z :=
  map_fold (fun k _ acc => Z.max k.1 acc) 1 (cells ws).

(** [range(2, max_row + 1)]. *)
Definition data_rows (ws : worksheet) : list Z := seqZ 2 (max_row ws - 1).

(** [cell_address in merged_range] for the single cell in column [col] and
    row [row]. *)
Definition in_range (rg : cell_range) (col row : Z) : bool :=
  (min_row rg <=? row) && (row <=? last_row rg) &&
  (min_col rg <=? col) && (col <=? last_col rg).

Definition set_cell (ws : worksheet) (row col : Z) (v : value) : worksheet :=
  {| cells := <[(row, col) := v]> (cells ws);
     merged_cells := merged_cells ws |}.

(** Rows a worksheet accepts. *)
Definition valid_row (row : Z) : bool := (1 <=? row) && (row <=? 1048576).

(** The loop of [write_to_cell] over the merged ranges, taken in the order
    in which the sheet yields them: the first range that contains the
    address receives the value in its anchor and the function returns;
    after the loop the addressed cell is assigned. *)
Fixpoint write_scan (ranges : list cell_range) (ws : worksheet)
    (col row : Z) (v : value) : worksheet :=
  match ranges with
  | rg :: rest =>
      if in_range rg col row
      then set_cell ws (min_row rg) (min_col rg) v
      else write_scan rest ws col row v
  | [] => set_cell ws row col v
  end.

(** [write_to_cell(ws, f"{col}{row}", value)].  An address whose row lies
    outside the sheet's rows is refused by the library with [ValueError],
    either when it is compared with a merged range or when the cell is
    fetched. *)
Definition write_to_cell (ws : worksheet) (col row : Z) (v : value)
    : result worksheet :=
  if valid_row row
  then Ok (write_scan (merged_cells ws) ws col row v)
  else Raise ValueError.

(** The cell a write to ([col], [row]) lands on. *)
Definition landing_cell (ranges : list cell_range) (col row : Z) : Z * Z :=
  match List.find (fun rg => in_range rg col row) ranges with
  | Some rg => (min_row rg, min_col rg)
  | None => (row, col)
  end.

(** A cell is a non-anchor cell of a merged range. *)
Definition non_anchor_of (rg : cell_range) (cell : Z * Z) : bool :=
  in_range rg cell.2 cell.1 &&
  negb ((cell.1 =? min_row rg) && (cell.2 =? min_col rg)).

(** Two ranges share no cell. *)
Definition disjoint_ranges (a b : cell_range) : bool :=
  (last_row a <? min_row b) || (last_row b <? min_row a) ||
  (last_col a <? min_col b) || (last_col b <? min_col a).

(** Merged ranges of a well-formed sheet: each is non-empty and no two
    overlap. *)
Definition range_nonempty (rg : cell_range) : bool :=
  (min_row rg <=? last_row rg) && (min_col rg <=? last_col rg).

Fixpoint ranges_wf (ranges : list cell_range) : bool :=
  match ranges with
  | [] => true
  | rg :: rest =>
      range_nonempty rg && forallb (disjoint_ranges rg) rest && ranges_wf rest
  end.

(** ** The ETL run *)

Record source_record : Type := {
  raw_key : string;
  norm_key : string;
  current : spec_float;
  previous : spec_float
}.

Record etl_state : Type := {
  target_ws : worksheet;
  filled : Z;
  missing_keys : list value
}.

(** How the mapping loop ends: it ran through, or an exception left it with
    the target sheet as written so far. *)
Inductive outcome : Type :=
| Done (st : etl_state)
| Aborted (e : exn) (st : etl_state).

Definition final_state (o : outcome) : etl_state :=
  match o with
  | Done st => st
  | Aborted _ st => st
  end.

Section Model.

(** [repr] of a finite non-zero float (shortest digits that read back as
    the same float); the program only ever passes it to [normalize] and
    stores it as [raw_key]. *)
Variable repr_finite : bool -> positive -> Z -> string.

(** [str(v)]. *)
Definition py_str (v : value) : string :=
  match v with
  | VNone => "None"
  | VBool b => if b then "True" else "False"
  | VInt n => NilZero.string_of_int (Z.to_int n)
  | VFloat x =>
      match x with
      | S754_zero s => if s then "-0.0" else "0.0"
      | S754_infinity s => if s then "-inf" else "inf"
      | S754_nan => "nan"
      | S754_finite s m e => repr_finite s m e
      end
  | VStr s => s
  | VTemporal t => temporal_text t
  end.

(** [normalize]. *)
Definition normalize (text : value) : string :=
  match text with
  | VNone => EmptyString
  | _ => Text.re_sub_non_az (Text.lower (py_str text))
  end.

(** The condition of the generator expression in the mapping loop. *)
Definition key_match (norm_map_key : string) (src : source_record) : bool :=
  Text.contains norm_map_key (norm_key src) ||
  Text.contains (norm_key src) norm_map_key.

(** [next((src for src in source_data if ...), None)]. *)
Definition find_match (norm_map_key : string)
    (source_data : list source_record) : option source_record :=
  List.find (key_match norm_map_key) source_data.

(** One iteration of the source loop: [None] when the row is not kept. *)
Definition source_row (source_ws : worksheet) (row : Z)
    : result (option source_record) :=
  let key := cell_value source_ws col_B row in
  let curr := cell_value source_ws col_D row in
  let prev := cell_value source_ws col_F row in
  if truthy key then
    c ← to_number curr;
    p ← to_number prev;
    Ok (Some {| raw_key := py_str key; norm_key := normalize key;
                current := c; previous := p |})
  else Ok None.

Fixpoint load_rows (source_ws : worksheet) (rows : list Z)
    (source_data : list source_record) : result (list source_record) :=
  match rows with
  | [] => Ok source_data
  | row :: rest =>
      o ← source_row source_ws row;
      load_rows source_ws rest
        (match o with Some r => source_data ++ [r] | None => source_data end)
  end.

Definition load_source (source_ws : worksheet) : result (list source_record) :=
  load_rows source_ws (data_rows source_ws) [].

(** One iteration of the mapping loop. *)
Definition process_row (factor : spec_float)
    (source_data : list source_record) (mapping_ws : worksheet)
    (st : etl_state) (row : Z) : outcome :=
  let map_key := cell_value mapping_ws col_A row in
  let target_row := cell_value mapping_ws col_B row in
  if negb (truthy map_key) || negb (truthy target_row) then Done st
  else
    let norm_map_key := normalize map_key in
    match find_match norm_map_key source_data with
    | None =>
        Done {| target_ws := target_ws st; filled := filled st;
                missing_keys := missing_keys st ++ [map_key] |}
    | Some m =>
        match r ← py_int target_row;
              curr_value ← Float.round (Float.mul (current m) factor);
              prev_value ← Float.round (Float.mul (previous m) factor);
              Ok (r, curr_value, prev_value) with
        | Raise e => Aborted e st
        | Ok (r, curr_value, prev_value) =>
            match write_to_cell (target_ws st) col_G r (VInt curr_value) with
            | Raise e => Aborted e st
            | Ok ws1 =>
                match write_to_cell ws1 col_J r (VInt prev_value) with
                | Raise e =>
                    Aborted e {| target_ws := ws1; filled := filled st;
                                 missing_keys := missing_keys st |}
                | Ok ws2 =>
                    Done {| target_ws := ws2; filled := filled st + 1;
                            missing_keys := missing_keys st |}
                end
            end
        end
    end.

Fixpoint mapping_loop (factor : spec_float)
    (source_data : list source_record) (mapping_ws : worksheet)
    (rows : list Z) (st : etl_state) : outcome :=
  match rows with
  | [] => Done st
  | row :: rest =>
      match process_row factor source_data mapping_ws st row with
      | Done st' => mapping_loop factor source_data mapping_ws rest st'
      | Aborted e st' => Aborted e st'
      end
  end.

(** What the run leaves behind: the target workbook, the two statistics
    and the exception that ended it, if any. *)
Record run_result : Type := {
  out_target : gmap string worksheet;
  out_filled : Z;
  out_missing : list value;
  out_error : option exn
}.

Definition failed (target_wb : gmap string worksheet) (e : exn) : run_result :=
  {| out_target := target_wb; out_filled := 0; out_missing := [];
     out_error := Some e |}.

(** [wb[name]]. *)
Definition get_sheet (wb : gmap string worksheet) (name : string)
    : result worksheet :=
  match wb !! name with
  | Some ws => Ok ws
  | None => Raise KeyError
  end.

(** The body of the [try] block from the sheet look-ups to the end of the
    mapping loop. *)
Definition run_etl (source_wb mapping_wb target_wb : gmap string worksheet)
    (source_sheet target_sheet : string) (factor : spec_float) : run_result :=
  match source_ws ← get_sheet source_wb source_sheet;
        mapping_ws ← get_sheet mapping_wb "Sheet1";
        target ← get_sheet target_wb target_sheet;
        source_data ← load_source source_ws;
        Ok (mapping_ws, target, source_data) with
  | Raise e => failed target_wb e
  | Ok (mapping_ws, target, source_data) =>
      let o := mapping_loop factor source_data mapping_ws
                 (data_rows mapping_ws)
                 {| target_ws := target; filled := 0; missing_keys := [] |} in
      {| out_target := <[target_sheet := target_ws (final_state o)]> target_wb;
         out_filled := filled (final_state o);
         out_missing := missing_keys (final_state o);
         out_error := match o with Aborted e _ => Some e | Done _ => None end |}
  end.

(** ** Vocabulary of the specification *)

(** [a] occurs in [b] as a contiguous block. *)
Definition is_substring (a b : string) : Prop :=
  exists pre post, b = pre +:+ a +:+ post.

(** A non-empty run of decimal digits. *)
Definition digits (s : string) : Prop :=
  s <> EmptyString /\ Text.all_decimal s = true.


(** The symmetric containment test on two normalised keys. *)
Definition fuzzy (a b : string) : bool :=
  Text.contains a b || Text.contains b a.

(** What the mapping loop decides for a row before it touches the target:
    the row is passed over, its key is unresolved, or it found a source
    record. *)
Inductive match_result : Type :=
| Skipped
| Unmatched (map_key : value)
| Matched (src : source_record).

(** Both columns of a mapping row are present: neither is empty or
    falsy, which is the condition under which the loop does not pass the
    row over. *)
Definition both_present (mapping_ws : worksheet) (row : Z) : bool :=
  truthy (cell_value mapping_ws col_A row) &&
  truthy (cell_value mapping_ws col_B row).

Definition classify (source_data : list source_record)
    (mapping_ws : worksheet) (row : Z) : match_result :=
  if both_present mapping_ws row then
    match find_match (normalize (cell_value mapping_ws col_A row))
            source_data with
    | Some m => Matched m
    | None => Unmatched (cell_value mapping_ws col_A row)
    end
  else Skipped.

Definition is_matched (k : match_result) : bool :=
  match k with Matched _ => true | _ => false end.

(** The row's key is unresolved: both columns are present and no source
    record matches. *)
Definition unmatched_row (source_data : list source_record)
    (mapping_ws : worksheet) (row : Z) : bool :=
  both_present mapping_ws row &&
  negb (is_matched (classify source_data mapping_ws row)).

Definition matched_row (source_data : list source_record)
    (mapping_ws : worksheet) (row : Z) : bool :=
  is_matched (classify source_data mapping_ws row).

Definition from_ok {A : Type} (d : A) (m : result A) : A :=
  match m with Ok a => a | Raise _ => d end.

(** [round(x * factor)]. *)
Definition scaled (factor x : spec_float) : result Z :=
  Float.round (Float.mul x factor).

(** The two writes the claim announces for a row: the scaled current value
    to column G and the scaled previous value to column J of the parsed
    target row; none for a row that is not matched. *)
Definition row_writes (factor : spec_float)
    (source_data : list source_record) (mapping_ws : worksheet) (row : Z)
    : list (Z * Z * value) :=
  match classify source_data mapping_ws row with
  | Matched m =>
      let r := from_ok 0 (py_int (cell_value mapping_ws col_B row)) in
      [ (col_G, r, VInt (from_ok 0 (scaled factor (current m))));
        (col_J, r, VInt (from_ok 0 (scaled factor (previous m)))) ]
  | _ => []
  end.

(** A matched row can be carried out: its target row parses to a row of
    the sheet and both scaled values round to an integer. *)
Definition row_writable (factor : spec_float)
    (source_data : list source_record) (mapping_ws : worksheet) (row : Z)
    : bool :=
  match classify source_data mapping_ws row with
  | Matched m =>
      match py_int (cell_value mapping_ws col_B row) with
      | Ok r => valid_row r
      | Raise _ => false
      end
      && is_ok (scaled factor (current m))
      && is_ok (scaled factor (previous m))
  | _ => true
  end.

Fixpoint write_all (ws : worksheet) (writes : list (Z * Z * value))
    : result worksheet :=
  match writes with
  | [] => Ok ws
  | (col, row, v) :: rest =>
      ws' ← write_to_cell ws col row v;
      write_all ws' rest
  end.

(** The cells a row may change: the landing cells of its two writes, once
    the row is matched and its target row parses. *)
Definition row_touches (source_data : list source_record)
    (mapping_ws : worksheet) (ranges : list cell_range) (row : Z)
    : list (Z * Z) :=
  match classify source_data mapping_ws row with
  | Matched _ =>
      match py_int (cell_value mapping_ws col_B row) with
      | Ok r => [landing_cell ranges col_G r; landing_cell ranges col_J r]
      | Raise _ => []
      end
  | _ => []
  end.

(** The record the source loop builds for a row it keeps. *)
Definition record_of (source_ws : worksheet) (row : Z) : source_record :=
  {| raw_key := py_str (cell_value source_ws col_B row);
     norm_key := normalize (cell_value source_ws col_B row);
     current := from_ok Float.zero (to_number (cell_value source_ws col_D row));
     previous := from_ok Float.zero (to_number (cell_value source_ws col_F row)) |}.

Definition row_kept (source_ws : worksheet) (row : Z) : bool :=
  truthy (cell_value source_ws col_B row).

(** Both value cells of a kept row coerce without an exception. *)
Definition row_coercible (source_ws : worksheet) (row : Z) : bool :=
  negb (row_kept source_ws row) ||
  (is_ok (to_number (cell_value source_ws col_D row)) &&
   is_ok (to_number (cell_value source_ws col_F row))).

(** ** After the loop *)

Definition is_text (v : value) : bool :=
  match v with VStr _ => true | _ => false end.

(** The value is a date or time. *)
Definition is_temporal (v : value) : bool :=
  match v with VTemporal _ => true | _ => false end.

(** [sep.join(items)] for a list of cell values: an item that is no text
    raises [TypeError]. *)
Fixpoint py_join (sep : string) (items : list value) : result string :=
  match items with
  | [] => Ok EmptyString
  | VStr s :: rest =>
      match rest with
      | [] => Ok s
      | _ => tail ← py_join sep rest; Ok (s +:+ sep +:+ tail)
      end
  | _ :: _ => Raise TypeError
  end.

(** The two messages after the loop: the count of filled rows and, when
    [missing_keys] is not empty, the warning that lists the keys. *)
Record summary : Type := {
  success_line : string;
  warning_line : option string
}.

Definition report (filled_rows : Z) (missing : list value) : result summary :=
  let success := "✅ Filled rows: " +:+ py_str (VInt filled_rows) in
  match missing with
  | [] => Ok {| success_line := success; warning_line := None |}
  | _ =>
      joined ← py_join ", " missing;
      Ok {| success_line := success;
            warning_line :=
              Some ("⚠ Source keys not found for: " +:+ joined) |}
  end.

(** How the inner [try] block ends: the filled workbook is handed to
    [save] and offered for download, or an exception reached the handler
    and nothing is offered. *)
Inductive block_result : Type :=
| Offered (wb : gmap string worksheet) (s : summary)
| Refused (e : exn).

(** The inner [try] block from the sheet look-ups to the download: the run,
    the two messages, the hand-over of the target workbook. *)
Definition etl_block (source_wb mapping_wb target_wb : gmap string worksheet)
    (source_sheet target_sheet : string) (factor : spec_float)
    : block_result :=
  let r := run_etl source_wb mapping_wb target_wb source_sheet target_sheet
             factor in
  match out_error r with
  | Some e => Refused e
  | None =>
      match report (out_filled r) (out_missing r) with
      | Ok s => Offered (out_target r) s
      | Raise e => Refused e
      end
  end.

(** ** Sample workbooks *)

(** A rendering of finite floats for the closed examples, none of which
    has a float as a key. *)
Definition repr_sample (s : bool) (m : positive) (e : Z) : string :=
  "1.5".

Definition sheet_of (l : list (Z * Z * value)) (ranges : list cell_range)
    : worksheet :=
  {| cells := list_to_map l; merged_cells := ranges |}.

Definition two : spec_float := S754_finite false 1 1.

(** One source row: key "Acme Corp", current 100, previous 200. *)
Definition acme_source : worksheet :=
  sheet_of [ ((1, 2), VStr "Name"); ((2, 2), VStr "Acme Corp");
             ((2, 4), VInt 100); ((2, 6), VInt 200) ] [].

(** Mapping rows ("ACME CORP.", 5) and ("Globex", 7). *)
Definition acme_mapping : worksheet :=
  sheet_of [ ((1, 1), VStr "Key"); ((2, 1), VStr "ACME CORP.");
             ((2, 2), VInt 5); ((3, 1), VStr "Globex"); ((3, 2), VInt 7) ] [].

(** A target sheet in which G5:H6 is merged. *)
Definition merged_target : worksheet :=
  sheet_of [ ((5, 7), VStr "old") ]
    [ {| min_row := 5; min_col := 7; last_row := 6; last_col := 8 |} ].

(** Mapping rows ("Acme", "abc") and ("Acme Corp", 5): the first target row
    is no number. *)
Definition bad_row_mapping : worksheet :=
  sheet_of [ ((1, 1), VStr "Key"); ((2, 1), VStr "Acme");
             ((2, 2), VStr "abc"); ((3, 1), VStr "Acme Corp");
             ((3, 2), VInt 5) ] [].

(** A source sheet whose only data row has the number 0 as its key. *)
Definition zero_key_source : worksheet :=
  sheet_of [ ((1, 2), VStr "Name"); ((2, 2), VInt 0);
             ((2, 4), VInt 100); ((2, 6), VInt 200) ] [].

(** Mapping row (123, 5): a key without letters. *)
Definition numeric_key_mapping : worksheet :=
  sheet_of [ ((1, 1), VStr "Key"); ((2, 1), VInt 123); ((2, 2), VInt 5) ] [].

(** The records loaded from [acme_source]: 100 and 200 as floats. *)
Definition acme_records : list source_record :=
  [ {| raw_key := "Acme Corp"; norm_key := "acmecorp";
       current := S754_finite false 7036874417766400 (-46);
       previous := S754_finite false 7036874417766400 (-45) |} ].

(** Two source rows whose keys normalise to the same text. *)
Definition twin_source : worksheet :=
  sheet_of [ ((1, 2), VStr "Name");
             ((2, 2), VStr "Acme Corp"); ((2, 4), VInt 100); ((2, 6), VInt 200);
             ((3, 2), VStr "ACME-CORP"); ((3, 4), VInt 300); ((3, 6), VInt 400) ]
    [].

Definition start_state (target : worksheet) : etl_state :=
  {| target_ws := target; filled := 0; missing_keys := [] |}.

(** The scenario of the specification on a target with a merged range:
    source [acme_source], mapping [acme_mapping], factor 2. *)
Definition acme_run : run_result :=
  run_etl {["S" := acme_source]} {["Sheet1" := acme_mapping]}
    {["T" := merged_target]} "S" "T" two.

(** The float [x] is exactly the integer [n], written with an exponent
    that is not positive. *)
Definition holds (x : spec_float) (n : Z) : Prop :=
  match x with
  | S754_zero _ => n = 0
  | S754_finite s m e =>
      -104 <= e <= 0 /\ exists p, Zpos m = Zpos p * 2 ^ (- e) /\
                          n = if s then Zneg p else Zpos p
  | _ => False
  end.

(** Mapping rows ("Acme Corp", 5), ("Acme", "abc") and ("Acme Corp", 9):
    the second target row is no number. *)
Definition late_bad_mapping : worksheet :=
  sheet_of [ ((1, 1), VStr "Key"); ((2, 1), VStr "Acme Corp");
             ((2, 2), VInt 5); ((3, 1), VStr "Acme"); ((3, 2), VStr "abc");
             ((4, 1), VStr "Acme Corp"); ((4, 2), VInt 9) ] [].

(** A mapping sheet that has its header row only. *)
Definition header_only_mapping : worksheet :=
  sheet_of [ ((1, 1), VStr "Key"); ((1, 2), VStr "Row") ] [].

(** The value of the last write of a list that lands on the cell [k], if
    any does. *)
Fixpoint last_write (ranges : list cell_range) (writes : list (Z * Z * value))
    (k : Z * Z) : option value :=
  match writes with
  | [] => None
  | (col, row, v) :: rest =>
      match last_write ranges rest k with
      | Some v' => Some v'
      | None =>
          if decide (landing_cell ranges col row = k) then Some v else None
      end
  end.

(** * Properties *)

(** ** Text *)

Lemma append_cons (c : ascii) (a b : string) :
  String c a +:+ b = String c (a +:+ b).
Proof. reflexivity. Qed.

Lemma append_nil (b : string) : EmptyString +:+ b = b.
Proof. reflexivity. Qed.

Lemma prefix_app (n h : string) :
  String.prefix n h = true <-> exists b, h = n +:+ b.
Proof.
  revert h. induction n as [|c n IH]; intros h.
  - destruct h; simpl; split; eauto.
  - destruct h as [|d h]; simpl.
    + split; [discriminate | intros [b Hb]; discriminate].
    + destruct (ascii_dec c d) as [->|Hne].
      * rewrite IH. split; intros [b Hb]; exists b;
          rewrite append_cons in *; congruence.
      * split; [discriminate|].
        intros [b Hb]. rewrite append_cons in Hb. congruence.
Qed.

Lemma contains_is_substring (n h : string) :
  Text.contains n h = true <-> is_substring n h.
Proof.
  unfold is_substring. induction h as [|c h IH]; cbn [Text.contains].
  - rewrite orb_false_r, prefix_app. split.
    + intros [b Hb]. exists EmptyString, b. exact Hb.
    + intros [pre [post H]]. destruct pre; [eauto | discriminate].
  - rewrite orb_true_iff, prefix_app, IH. split.
    + intros [[b Hb] | [pre [post H]]].
      * exists EmptyString, b. exact Hb.
      * exists (String c pre), post. rewrite append_cons. congruence.
    + intros [pre [post H]]. destruct pre as [|d pre].
      * left. eauto.
      * right. exists pre, post. rewrite append_cons in H. congruence.
Qed.

Lemma contains_empty (h : string) : Text.contains EmptyString h = true.
Proof. destruct h; reflexivity. Qed.

Lemma fuzzy_sym (a b : string) : fuzzy a b = fuzzy b a.
Proof. unfold fuzzy. apply orb_comm. Qed.

Lemma re_sub_non_az_only (s : string) :
  Text.all_chars Text.is_az (Text.re_sub_non_az s) = true.
Proof.
  induction s as [|c s IH]; simpl; [reflexivity|].
  destruct (Text.is_az c) eqn:E; simpl; [rewrite E|]; exact IH.
Qed.

Lemma re_sub_non_az_filter (s : string) :
  Text.re_sub_non_az s =
  string_of_list_ascii (List.filter Text.is_az (list_ascii_of_string s)).
Proof.
  induction s as [|c s IH]; simpl; [reflexivity|].
  destruct (Text.is_az c); simpl; congruence.
Qed.

(** On text without bytes above 127, [lower] is the character-wise shift
    of the capitals. *)
Lemma lower_ascii_text (s : string) :
  Text.all_chars Text.is_ascii s = true ->
  list_ascii_of_string (Text.lower s) =
  List.map Text.lower_ascii (list_ascii_of_string s).
Proof.
  induction s as [|c s IH]; [reflexivity|].
  cbn [Text.all_chars]. intros [Hc Hs]%andb_true_iff.
  specialize (IH Hs).
  destruct c as [[] [] [] [] [] [] [] []]; try discriminate Hc;
    cbn [Text.lower list_ascii_of_string List.map]; f_equal; exact IH.
Qed.

(** ** Key normalisation *)

(** C3.  [normalize] returns the empty string for an absent value and
    otherwise the text of the value, lowercased, with every character
    outside [a-z] removed: the result is the sequence of the characters of
    the lowercased text that are ASCII letters (for a text of ASCII
    characters, the letters of the text with the capitals shifted), it
    consists of characters in [a-z] only, and [normalize("A-1 b")] is
    ["ab"]. *)
Theorem normalize_letters_only (v : value) :
  normalize VNone = EmptyString /\
  normalize v =
    match v with
    | VNone => EmptyString
    | _ => string_of_list_ascii
             (List.filter Text.is_az
                (list_ascii_of_string (Text.lower (py_str v))))
    end /\
  (forall s, Text.all_chars Text.is_ascii s = true ->
     normalize (VStr s) =
     string_of_list_ascii
       (List.filter Text.is_az
          (List.map Text.lower_ascii (list_ascii_of_string s)))) /\
  Text.all_chars Text.is_az (normalize v) = true /\
  normalize (VStr "A-1 b") = "ab".
Proof.
  split; [reflexivity|]. split; [|split; [|split; [|reflexivity]]].
  - destruct v; try reflexivity; unfold normalize; apply re_sub_non_az_filter.
  - intros s Hs. unfold normalize. cbn [py_str].
    rewrite re_sub_non_az_filter, lower_ascii_text by exact Hs. reflexivity.
  - destruct v; try reflexivity; unfold normalize; apply re_sub_non_az_only.
Qed.

(** ** Fuzzy matching *)

Lemma find_first {A : Type} (p : A -> bool) (l : list A) :
  match List.find p l with
  | Some x =>
      exists pre post,
        l = pre ++ x :: post /\ p x = true /\
        Forall (fun y => p y = false) pre
  | None => Forall (fun y => p y = false) l
  end.
Proof.
  induction l as [|a l IH]; simpl; [constructor|].
  destruct (p a) eqn:Ha.
  - exists [], l. repeat split; auto.
  - destruct (List.find p l) as [x|].
    + destruct IH as (pre & post & -> & Hx & Hpre).
      exists (a :: pre), post. repeat split; auto.
    + constructor; assumption.
Qed.

Lemma find_after_misses {A : Type} (p : A -> bool) (pre : list A) (x : A)
    (post : list A) :
  Forall (fun y => p y = false) pre -> p x = true ->
  List.find p (pre ++ x :: post) = Some x.
Proof.
  induction 1 as [|a pre Ha _ IH]; intros Hx; simpl.
  - rewrite Hx. reflexivity.
  - rewrite Ha. auto.
Qed.

(** C2.  The condition tested for a source record is the symmetric
    containment of the two normalised keys, whichever is longer; the match
    is the first record in load order that satisfies it, every record
    before it fails it, and the records after it play no part. *)
Theorem find_match_first_in_order (nk : string)
    (source_data : list source_record) :
  (forall src,
     key_match nk src = true <->
     is_substring nk (norm_key src) \/ is_substring (norm_key src) nk) /\
  (forall a b, fuzzy a b = fuzzy b a) /\
  match find_match nk source_data with
  | Some m =>
      exists pre post,
        source_data = pre ++ m :: post /\
        key_match nk m = true /\
        Forall (fun src => key_match nk src = false) pre /\
        forall later, find_match nk (pre ++ m :: later) = Some m
  | None => Forall (fun src => key_match nk src = false) source_data
  end.
Proof.
  split; [|split].
  - intros src. unfold key_match.
    rewrite orb_true_iff, !contains_is_substring. reflexivity.
  - apply fuzzy_sym.
  - unfold find_match.
    pose proof (find_first (key_match nk) source_data) as H.
    destruct (List.find (key_match nk) source_data) as [m|]; [|exact H].
    destruct H as (pre & post & -> & Hm & Hpre).
    exists pre, post. repeat split; auto.
    intros later. apply find_after_misses; assumption.
Qed.

(** ** The number pattern *)




















(** ** Integers as floats *)

Lemma digits2_iter_xO (m d : positive) :
  digits2_pos (Pos.iter xO m d) = (digits2_pos m + d)%positive.
Proof.
  induction d as [|d IH] using Pos.peano_ind.
  - cbn. lia.
  - rewrite Pos.iter_succ. cbn [digits2_pos]. rewrite IH. lia.
Qed.

Lemma iter_xO_value (m d : positive) :
  Zpos (Pos.iter xO m d) = Zpos m * 2 ^ Zpos d.
Proof.
  induction d as [|d IH] using Pos.peano_ind.
  - cbn. lia.
  - rewrite Pos.iter_succ, Pos2Z.inj_succ, Z.pow_succ_r by lia.
    rewrite Pos2Z.inj_xO, IH. lia.
Qed.




(** ** Value coercion *)

Lemma of_int_raises (n : Z) (e : exn) :
  Float.of_int n = Raise e -> e = OverflowError.
Proof.
  unfold Float.of_int.
  destruct (binary_normalize Float.prec Float.emax n 0 false);
    intros [=]; congruence.
Qed.

Lemma to_number_raises (v : value) (e : exn) :
  to_number v = Raise e ->
  e = OverflowError /\
  exists n, v = VInt n /\ Float.of_int n = Raise OverflowError.
Proof.
  destruct v as [|b|n|x|s|t]; cbn [to_number]; try discriminate.
  - destruct b; vm_compute; discriminate.
  - intros H. pose proof (of_int_raises _ _ H) as ->. eauto.
Qed.



(** ** Writing through merged ranges *)

Lemma write_scan_landing (ranges : list cell_range) (ws : worksheet)
    (col row : Z) (v : value) :
  write_scan ranges ws col row v =
  set_cell ws (landing_cell ranges col row).1 (landing_cell ranges col row).2 v.
Proof.
  unfold landing_cell.
  induction ranges as [|rg rest IH]; cbn [write_scan List.find]; [reflexivity|].
  destruct (in_range rg col row); [reflexivity | exact IH].
Qed.

Lemma in_range_bounds (rg : cell_range) (col row : Z) :
  in_range rg col row = true <->
  min_row rg <= row <= last_row rg /\ min_col rg <= col <= last_col rg.
Proof. unfold in_range. rewrite !andb_true_iff, !Z.leb_le. lia. Qed.

Lemma disjoint_no_common_cell (a b : cell_range) (col row : Z) :
  disjoint_ranges a b = true ->
  in_range a col row = true -> in_range b col row = true -> False.
Proof.
  unfold disjoint_ranges. rewrite !orb_true_iff, !Z.ltb_lt, !in_range_bounds.
  lia.
Qed.

Lemma disjoint_ranges_sym (a b : cell_range) :
  disjoint_ranges a b = disjoint_ranges b a.
Proof.
  unfold disjoint_ranges.
  destruct (last_row a <? min_row b), (last_row b <? min_row a),
    (last_col a <? min_col b), (last_col b <? min_col a); reflexivity.
Qed.

Lemma anchor_in_range (rg : cell_range) :
  range_nonempty rg = true -> in_range rg (min_col rg) (min_row rg) = true.
Proof.
  unfold range_nonempty. rewrite andb_true_iff, !Z.leb_le, in_range_bounds. lia.
Qed.

Lemma ranges_wf_nonempty (ranges : list cell_range) (rg : cell_range) :
  ranges_wf ranges = true -> In rg ranges -> range_nonempty rg = true.
Proof.
  induction ranges as [|a rest IH]; cbn [ranges_wf]; [contradiction|].
  intros [[Ha _]%andb_true_iff Hrest]%andb_true_iff [<-|Hin]; auto.
Qed.

Lemma ranges_wf_pairwise (ranges : list cell_range) (a b : cell_range) :
  ranges_wf ranges = true -> In a ranges -> In b ranges ->
  a = b \/ disjoint_ranges a b = true.
Proof.
  induction ranges as [|x rest IH]; cbn [ranges_wf]; [contradiction|].
  intros [[_ Hdis]%andb_true_iff Hrest]%andb_true_iff.
  rewrite forallb_forall in Hdis.
  intros [<-|Ha] [<-|Hb]; auto.
  right. rewrite disjoint_ranges_sym. auto.
Qed.

Lemma landing_cell_cases (ranges : list cell_range) (col row : Z) :
  (exists rg, In rg ranges /\ in_range rg col row = true /\
              landing_cell ranges col row = (min_row rg, min_col rg)) \/
  (landing_cell ranges col row = (row, col) /\
   forall rg, In rg ranges -> in_range rg col row = false).
Proof.
  unfold landing_cell.
  destruct (List.find (fun rg => in_range rg col row) ranges) as [rg|] eqn:E.
  - left. exists rg. apply find_some in E. tauto.
  - right. split; [reflexivity|]. intros rg Hin.
    exact (find_none _ _ E rg Hin).
Qed.

Lemma landing_cell_anchor (ranges : list cell_range) (rg : cell_range)
    (col row : Z) :
  ranges_wf ranges = true -> In rg ranges -> in_range rg col row = true ->
  landing_cell ranges col row = (min_row rg, min_col rg).
Proof.
  intros Hwf Hin Hrg.
  destruct (landing_cell_cases ranges col row)
    as [(rg' & Hin' & Hrg' & ->) | [_ Hnone]].
  - destruct (ranges_wf_pairwise _ _ _ Hwf Hin Hin') as [->|Hdis];
      [reflexivity|].
    destruct (disjoint_no_common_cell _ _ _ _ Hdis Hrg Hrg').
  - rewrite (Hnone rg Hin) in Hrg. discriminate.
Qed.

Lemma landing_cell_never_inner (ranges : list cell_range) (rg : cell_range)
    (col row : Z) :
  ranges_wf ranges = true -> In rg ranges ->
  non_anchor_of rg (landing_cell ranges col row) = false.
Proof.
  intros Hwf Hin. unfold non_anchor_of.
  destruct (landing_cell_cases ranges col row)
    as [(rg' & Hin' & Hrg' & ->) | [-> Hnone]]; cbn [fst snd].
  - destruct (ranges_wf_pairwise _ _ _ Hwf Hin Hin') as [->|Hdis].
    + rewrite !Z.eqb_refl. apply andb_false_r.
    + destruct (in_range rg (min_col rg') (min_row rg')) eqn:E; [|reflexivity].
      destruct (disjoint_no_common_cell _ _ _ _ Hdis E).
      apply anchor_in_range. eapply ranges_wf_nonempty; eassumption.
  - rewrite (Hnone rg Hin). reflexivity.
Qed.

Lemma set_cell_twice (ws : worksheet) (row col : Z) (v1 v2 : value) :
  set_cell (set_cell ws row col v1) row col v2 = set_cell ws row col v2.
Proof. unfold set_cell. cbn. f_equal. apply insert_insert_eq. Qed.

Lemma cell_value_set_cell (ws : worksheet) (row col : Z) (v : value) :
  cell_value (set_cell ws row col v) col row = v.
Proof. unfold cell_value, set_cell. cbn. rewrite lookup_insert_eq. reflexivity. Qed.

Lemma write_to_cell_ok (ws : worksheet) (col row : Z) (v : value) :
  valid_row row = true ->
  write_to_cell ws col row v =
  Ok (set_cell ws (landing_cell (merged_cells ws) col row).1
        (landing_cell (merged_cells ws) col row).2 v).
Proof.
  intros Hrow. unfold write_to_cell. rewrite Hrow, write_scan_landing.
  reflexivity.
Qed.

(** What a successful write leaves alone. *)
Lemma write_to_cell_frame (ws ws' : worksheet) (col row : Z) (v : value) :
  write_to_cell ws col row v = Ok ws' ->
  merged_cells ws' = merged_cells ws /\
  forall k, k <> landing_cell (merged_cells ws) col row ->
            cells ws' !! k = cells ws !! k.
Proof.
  unfold write_to_cell. destruct (valid_row row); [|discriminate].
  rewrite write_scan_landing. intros [= <-]. split; [reflexivity|].
  intros k Hk. cbn. apply lookup_insert_ne.
  destruct (landing_cell (merged_cells ws) col row). cbn. congruence.
Qed.

(** C5.  On a sheet whose merged ranges are well formed, a write to an
    address of the sheet stores the value in one cell, the landing cell,
    and leaves every other cell as it was; when the address lies inside a
    merged range the landing cell is that range's anchor; the landing cell
    is never a non-anchor cell of a merged range; and a second write to the
    same address lands on the same cell and replaces the first value. *)
Theorem write_lands_on_anchor (ws : worksheet) (col row : Z) (v : value) :
  valid_row row = true ->
  ranges_wf (merged_cells ws) = true ->
  let cell := landing_cell (merged_cells ws) col row in
  write_to_cell ws col row v = Ok (set_cell ws cell.1 cell.2 v) /\
  cell_value (set_cell ws cell.1 cell.2 v) cell.2 cell.1 = v /\
  (forall k, k <> cell ->
     cells (set_cell ws cell.1 cell.2 v) !! k = cells ws !! k) /\
  (forall rg, In rg (merged_cells ws) -> in_range rg col row = true ->
     cell = (min_row rg, min_col rg)) /\
  (forall rg, In rg (merged_cells ws) -> non_anchor_of rg cell = false) /\
  (forall v0,
     (ws1 ← write_to_cell ws col row v0; write_to_cell ws1 col row v) =
     write_to_cell ws col row v).
Proof.
  intros Hrow Hwf cell.
  pose proof (write_to_cell_ok ws col row v Hrow) as Hw. fold cell in Hw.
  split; [exact Hw|]. split; [apply cell_value_set_cell|].
  split; [|split; [|split]].
  - intros k Hk. apply (write_to_cell_frame _ _ _ _ _ Hw). exact Hk.
  - intros rg Hin Hrg. apply landing_cell_anchor; assumption.
  - intros rg Hin. apply landing_cell_never_inner; assumption.
  - intros v0. rewrite (write_to_cell_ok ws col row v0 Hrow). cbn.
    rewrite write_to_cell_ok by exact Hrow. cbn [merged_cells set_cell].
    rewrite Hw. fold cell. f_equal. apply set_cell_twice.
Qed.

(** ** The mapping loop *)

Ltac unfold_bind := unfold mbind, result_bind, rbind in *.

Lemma write_all_app (ws : worksheet) (a b : list (Z * Z * value)) :
  write_all ws (a ++ b) = (ws' ← write_all ws a; write_all ws' b).
Proof.
  revert ws. induction a as [|[[col row] v] a IH]; intros ws; [reflexivity|].
  cbn [write_all app]. unfold_bind.
  destruct (write_to_cell ws col row v); [apply IH | reflexivity].
Qed.

Lemma both_present_negb (mapping_ws : worksheet) (row : Z) :
  negb (truthy (cell_value mapping_ws col_A row)) ||
  negb (truthy (cell_value mapping_ws col_B row)) =
  negb (both_present mapping_ws row).
Proof. unfold both_present. symmetry. apply negb_andb. Qed.

(** A row that is passed over changes nothing. *)
Lemma process_row_skipped factor source_data mapping_ws st row :
  both_present mapping_ws row = false ->
  process_row factor source_data mapping_ws st row = Done st.
Proof.
  intros H. unfold process_row. rewrite both_present_negb, H. reflexivity.
Qed.

(** A row with an unresolved key only extends [missing_keys]. *)
Lemma process_row_unmatched factor source_data mapping_ws st row :
  both_present mapping_ws row = true ->
  find_match (normalize (cell_value mapping_ws col_A row)) source_data = None ->
  process_row factor source_data mapping_ws st row =
  Done {| target_ws := target_ws st; filled := filled st;
          missing_keys := missing_keys st ++ [cell_value mapping_ws col_A row] |}.
Proof.
  intros H Hm. unfold process_row. rewrite both_present_negb, H, Hm.
  reflexivity.
Qed.

(** A matched row whose target row and values are in order performs its
    two writes and counts as filled. *)
Lemma process_row_matched factor source_data mapping_ws st row m r c p :
  both_present mapping_ws row = true ->
  find_match (normalize (cell_value mapping_ws col_A row)) source_data = Some m ->
  py_int (cell_value mapping_ws col_B row) = Ok r ->
  valid_row r = true ->
  scaled factor (current m) = Ok c ->
  scaled factor (previous m) = Ok p ->
  exists ws',
    write_all (target_ws st) [(col_G, r, VInt c); (col_J, r, VInt p)] = Ok ws' /\
    process_row factor source_data mapping_ws st row =
    Done {| target_ws := ws'; filled := filled st + 1;
            missing_keys := missing_keys st |}.
Proof.
  intros H Hm Hr Hv Hc Hp. unfold process_row, scaled in *.
  rewrite both_present_negb, H, Hm, Hr, Hc, Hp. cbn.
  rewrite (write_to_cell_ok (target_ws st) col_G r (VInt c) Hv). cbn.
  set (ws1 := set_cell _ _ _ _).
  rewrite (write_to_cell_ok ws1 col_J r (VInt p) Hv). cbn.
  eexists. split; reflexivity.
Qed.

Lemma process_row_writable factor source_data mapping_ws st row :
  row_writable factor source_data mapping_ws row = true ->
  exists st',
    process_row factor source_data mapping_ws st row = Done st' /\
    write_all (target_ws st) (row_writes factor source_data mapping_ws row) =
      Ok (target_ws st') /\
    filled st' =
      filled st + (if matched_row source_data mapping_ws row then 1 else 0) /\
    missing_keys st' =
      missing_keys st ++
      (if unmatched_row source_data mapping_ws row
       then [cell_value mapping_ws col_A row] else []).
Proof.
  unfold row_writable, row_writes, matched_row, unmatched_row, classify.
  destruct (both_present mapping_ws row) eqn:Hb.
  - destruct (find_match _ source_data) as [m|] eqn:Hm; cbn.
    + destruct (py_int _) as [r|] eqn:Hr; [|discriminate].
      destruct (scaled factor (current m)) as [c|] eqn:Hc;
        [|rewrite andb_false_r; discriminate].
      destruct (scaled factor (previous m)) as [p|] eqn:Hp;
        [|rewrite andb_false_r; discriminate].
      rewrite !andb_true_r. intros Hv.
      destruct (process_row_matched factor _ _ st _ _ _ _ _ Hb Hm Hr Hv Hc Hp)
        as (ws' & Hw & ->).
      eexists. split; [reflexivity|]. cbn [target_ws filled missing_keys from_ok].
      rewrite app_nil_r. auto.
    + intros _. rewrite (process_row_unmatched _ _ _ _ _ Hb Hm).
      eexists. split; [reflexivity|]. cbn. rewrite Z.add_0_r. auto.
  - intros _. rewrite (process_row_skipped _ _ _ _ _ Hb).
    eexists. split; [reflexivity|]. cbn. rewrite Z.add_0_r, app_nil_r. auto.
Qed.

(** When every matched row is in order the loop runs through; its writes
    are those of the rows in order, and the two statistics count the
    matched and the unresolved rows. *)
Lemma mapping_loop_writable factor source_data mapping_ws rows st :
  forallb (row_writable factor source_data mapping_ws) rows = true ->
  exists st',
    mapping_loop factor source_data mapping_ws rows st = Done st' /\
    write_all (target_ws st)
      (flat_map (row_writes factor source_data mapping_ws) rows) =
      Ok (target_ws st') /\
    filled st' =
      filled st +
      Z.of_nat (length (List.filter (matched_row source_data mapping_ws) rows)) /\
    missing_keys st' =
      missing_keys st ++
      List.map (cell_value mapping_ws col_A)
        (List.filter (unmatched_row source_data mapping_ws) rows).
Proof.
  revert st. induction rows as [|row rows IH]; intros st.
  - intros _. exists st. cbn. rewrite Z.add_0_r, app_nil_r. auto.
  - cbn [forallb]. intros [Hrow Hrows]%andb_true_iff.
    destruct (process_row_writable factor _ _ st _ Hrow)
      as (st1 & Hstep & Hw1 & Hf1 & Hm1).
    destruct (IH st1 Hrows) as (st' & Hloop & Hw & Hf & Hm).
    exists st'. cbn [mapping_loop flat_map List.filter]. rewrite Hstep.
    split; [exact Hloop|]. split; [|split].
    + rewrite write_all_app, Hw1. exact Hw.
    + rewrite Hf, Hf1.
      destruct (matched_row source_data mapping_ws row); cbn [length]; lia.
    + rewrite Hm, Hm1.
      destruct (unmatched_row source_data mapping_ws row);
        cbn [List.map]; rewrite <- app_assoc; reflexivity.
Qed.

(** A row the loop gets past was in order. *)
Lemma process_row_done factor source_data mapping_ws st row st' :
  process_row factor source_data mapping_ws st row = Done st' ->
  row_writable factor source_data mapping_ws row = true.
Proof.
  unfold process_row, row_writable, classify, scaled.
  rewrite both_present_negb.
  destruct (both_present mapping_ws row); [|reflexivity]. cbn.
  destruct (find_match _ source_data) as [m|]; [|reflexivity].
  destruct (py_int _) as [r|]; cbn; [|discriminate].
  destruct (Float.round (Float.mul (current m) factor)); cbn; [|discriminate].
  destruct (Float.round (Float.mul (previous m) factor)); cbn; [|discriminate].
  unfold write_to_cell. destruct (valid_row r); [reflexivity | discriminate].
Qed.

Lemma mapping_loop_done factor source_data mapping_ws rows st st' :
  mapping_loop factor source_data mapping_ws rows st = Done st' ->
  forallb (row_writable factor source_data mapping_ws) rows = true.
Proof.
  revert st. induction rows as [|row rows IH]; intros st; [reflexivity|].
  cbn [mapping_loop forallb].
  destruct (process_row factor source_data mapping_ws st row) as [st1|e st1] eqn:E;
    [|discriminate].
  intros H. rewrite (process_row_done _ _ _ _ _ _ E). exact (IH _ H).
Qed.

(** The loop runs through exactly when every matched row is in order. *)
Lemma mapping_loop_completes factor source_data mapping_ws rows st :
  (exists st', mapping_loop factor source_data mapping_ws rows st = Done st')
  <-> forallb (row_writable factor source_data mapping_ws) rows = true.
Proof.
  split.
  - intros [st' H]. exact (mapping_loop_done _ _ _ _ _ _ H).
  - intros H.
    destruct (mapping_loop_writable factor _ _ _ st H) as (st' & Hl & _).
    eauto.
Qed.

Lemma run_etl_loaded source_wb mapping_wb target_wb source_sheet target_sheet
    factor source_ws mapping_ws target source_data :
  source_wb !! source_sheet = Some source_ws ->
  mapping_wb !! "Sheet1" = Some mapping_ws ->
  target_wb !! target_sheet = Some target ->
  load_source source_ws = Ok source_data ->
  run_etl source_wb mapping_wb target_wb source_sheet target_sheet factor =
  let o := mapping_loop factor source_data mapping_ws (data_rows mapping_ws)
             {| target_ws := target; filled := 0; missing_keys := [] |} in
  {| out_target := <[target_sheet := target_ws (final_state o)]> target_wb;
     out_filled := filled (final_state o);
     out_missing := missing_keys (final_state o);
     out_error := match o with Aborted e _ => Some e | Done _ => None end |}.
Proof.
  intros Hs Hm Ht Hl. unfold run_etl, get_sheet.
  rewrite Hs, Hm, Ht. cbn. rewrite Hl. reflexivity.
Qed.

(** C1, at the failing input.  The source has the one record "Acme Corp"
    with current 100 and previous 200; the mapping sheet pairs "Acme" with
    the target row "abc" and "Acme Corp" with the target row 5, and the
    factor is 2.  Both mapping rows match the record, and for the second
    one the claim announces 200 in G5 and 400 in J5 and a count of two
    filled rows.  The run ends with [ValueError] at the first row: nothing
    is counted, and G5 and J5 of the target are as they were. *)
Theorem matched_rows_left_unfilled :
  let r := run_etl {["S" := acme_source]} {["Sheet1" := bad_row_mapping]}
             {["T" := merged_target]} "S" "T" two in
  load_source acme_source = Ok acme_records /\
  List.filter (matched_row acme_records bad_row_mapping)
    (data_rows bad_row_mapping) = [2; 3] /\
  (exists m,
     classify acme_records bad_row_mapping 3 = Matched m /\
     py_int (cell_value bad_row_mapping col_B 3) = Ok 5 /\
     scaled two (current m) = Ok 200 /\
     scaled two (previous m) = Ok 400) /\
  out_error r = Some ValueError /\
  out_filled r = 0 /\
  (exists ws,
     out_target r !! "T" = Some ws /\
     cell_value ws col_G 5 = VStr "old" /\
     cell_value ws col_J 5 = VNone).
Proof.
  cbv zeta.
  split; [vm_compute; reflexivity|]. split; [vm_compute; reflexivity|].
  split; [eexists; repeat split; vm_compute; reflexivity|].
  split; [vm_compute; reflexivity|]. split; [vm_compute; reflexivity|].
  exists merged_target. repeat split; vm_compute; reflexivity.
Qed.

(** C6.  A mapping row with both columns present whose normalised key
    matches no source record appends its original key to [missing_keys],
    leaves the target sheet and the count as they are, and the loop goes on
    with the next row. *)
Theorem unresolved_key_recorded factor source_data mapping_ws st row rest :
  both_present mapping_ws row = true ->
  find_match (normalize (cell_value mapping_ws col_A row)) source_data = None ->
  let st' :=
    {| target_ws := target_ws st; filled := filled st;
       missing_keys := missing_keys st ++ [cell_value mapping_ws col_A row] |} in
  process_row factor source_data mapping_ws st row = Done st' /\
  mapping_loop factor source_data mapping_ws (row :: rest) st =
  mapping_loop factor source_data mapping_ws rest st'.
Proof.
  intros Hb Hm st'.
  pose proof (process_row_unmatched factor _ _ st _ Hb Hm) as Hstep.
  split; [exact Hstep|]. cbn [mapping_loop]. rewrite Hstep. reflexivity.
Qed.

(** ** What a run may change *)

Lemma row_touches_spec source_data mapping_ws ranges row k :
  In k (row_touches source_data mapping_ws ranges row) <->
  exists m r,
    classify source_data mapping_ws row = Matched m /\
    py_int (cell_value mapping_ws col_B row) = Ok r /\
    (k = landing_cell ranges col_G r \/ k = landing_cell ranges col_J r).
Proof.
  unfold row_touches.
  destruct (classify source_data mapping_ws row) as [| |m].
  - split; [contradiction | intros (m & r & H & _); discriminate].
  - split; [contradiction | intros (m & r & H & _); discriminate].
  - destruct (py_int _) as [r|e].
    + cbn [In]. split.
      * intros [<-|[<-|[]]]; exists m, r; auto.
      * intros (m' & r' & _ & [= <-] & [->| ->]); auto.
    + split; [contradiction | intros (m' & r' & _ & H & _); discriminate].
Qed.

Lemma process_row_frame factor source_data mapping_ws st row :
  let st' := final_state (process_row factor source_data mapping_ws st row) in
  merged_cells (target_ws st') = merged_cells (target_ws st) /\
  forall k,
    ~ In k (row_touches source_data mapping_ws
              (merged_cells (target_ws st)) row) ->
    cells (target_ws st') !! k = cells (target_ws st) !! k.
Proof.
  unfold process_row, row_touches, classify. rewrite both_present_negb.
  destruct (both_present mapping_ws row); cbn; [|auto].
  destruct (find_match _ source_data) as [m|]; cbn; [|auto].
  destruct (py_int _) as [r|]; cbn; [|auto].
  destruct (Float.round (Float.mul (current m) factor)) as [c|]; cbn; [|auto].
  destruct (Float.round (Float.mul (previous m) factor)) as [p|]; cbn; [|auto].
  destruct (write_to_cell (target_ws st) col_G r (VInt c)) as [ws1|] eqn:W1;
    cbn; [|auto].
  apply write_to_cell_frame in W1 as [Hm1 Hc1].
  destruct (write_to_cell ws1 col_J r (VInt p)) as [ws2|] eqn:W2; cbn.
  - apply write_to_cell_frame in W2 as [Hm2 Hc2]. rewrite Hm1 in *.
    split; [congruence|]. intros k Hk.
    rewrite Hc2, Hc1; [reflexivity | |]; intros ->; apply Hk; auto.
  - split; [exact Hm1|]. intros k Hk. apply Hc1. intros ->. apply Hk. auto.
Qed.

Lemma mapping_loop_frame factor source_data mapping_ws rows st :
  let st' :=
    final_state (mapping_loop factor source_data mapping_ws rows st) in
  merged_cells (target_ws st') = merged_cells (target_ws st) /\
  forall k,
    ~ In k (flat_map (row_touches source_data mapping_ws
                        (merged_cells (target_ws st))) rows) ->
    cells (target_ws st') !! k = cells (target_ws st) !! k.
Proof.
  revert st. induction rows as [|row rows IH]; intros st; cbn zeta.
  - cbn. auto.
  - cbn [mapping_loop flat_map].
    pose proof (process_row_frame factor source_data mapping_ws st row)
      as [Hm1 Hc1]. cbn zeta in *.
    destruct (process_row factor source_data mapping_ws st row)
      as [st1|e st1]; cbn [final_state] in *.
    + destruct (IH st1) as [Hm2 Hc2]. cbn zeta in *. rewrite Hm1 in *.
      split; [exact Hm2|]. intros k Hk. rewrite in_app_iff in Hk.
      rewrite Hc2, Hc1; tauto.
    + split; [exact Hm1|]. intros k Hk. rewrite in_app_iff in Hk.
      apply Hc1. tauto.
Qed.

(** C10.  Whatever the run does, every other sheet of the target workbook
    is as before; the merged ranges of the target sheet are as before; and
    a cell of the target sheet whose content differs after the run is the
    landing cell of [G{r}] or [J{r}] for some matched mapping row with
    parsed target row [r], that is [G{r}] or [J{r}] itself or the anchor of
    the merged range around it.  This holds for a run that is aborted as
    well. *)
Theorem run_etl_frame
    (source_wb mapping_wb target_wb : gmap string worksheet)
    (source_sheet target_sheet : string) (factor : spec_float) :
  let r := run_etl source_wb mapping_wb target_wb source_sheet target_sheet
             factor in
  (forall name, name <> target_sheet ->
     out_target r !! name = target_wb !! name) /\
  (forall target, target_wb !! target_sheet = Some target ->
     exists ws',
       out_target r !! target_sheet = Some ws' /\
       merged_cells ws' = merged_cells target /\
       forall k, cells ws' !! k <> cells target !! k ->
         exists source_ws mapping_ws source_data row m tr,
           source_wb !! source_sheet = Some source_ws /\
           mapping_wb !! "Sheet1" = Some mapping_ws /\
           load_source source_ws = Ok source_data /\
           In row (data_rows mapping_ws) /\
           classify source_data mapping_ws row = Matched m /\
           py_int (cell_value mapping_ws col_B row) = Ok tr /\
           (k = landing_cell (merged_cells target) col_G tr \/
            k = landing_cell (merged_cells target) col_J tr)) /\
  (target_wb !! target_sheet = None -> out_target r = target_wb).
Proof.
  cbv zeta. unfold run_etl, get_sheet.
  destruct (source_wb !! source_sheet) as [source_ws|] eqn:Hs; cbn;
    [|split; [auto | split; [eauto 6 | auto]]; intros target Ht;
      exists target; repeat split; [assumption | congruence]].
  destruct (mapping_wb !! "Sheet1") as [mapping_ws|] eqn:Hm; cbn;
    [|split; [auto | split; [| auto]]; intros target Ht;
      exists target; repeat split; [assumption | congruence]].
  destruct (target_wb !! target_sheet) as [target|] eqn:Ht; cbn;
    [|split; [auto | split; [discriminate | auto]]].
  destruct (load_source source_ws) as [source_data|] eqn:Hl; cbn.
  - split; [|split; [|discriminate]].
    + intros name Hne. apply lookup_insert_ne. congruence.
    + intros ? [= <-]. rewrite lookup_insert_eq.
      pose proof (mapping_loop_frame factor source_data mapping_ws
                    (data_rows mapping_ws)
                    {| target_ws := target; filled := 0; missing_keys := [] |})
        as [Hmerged Hcells]. cbn [target_ws] in *.
      eexists. split; [reflexivity|]. split; [exact Hmerged|].
      intros k Hk.
      destruct (in_dec (fun a b : Z * Z => decide (a = b)) k
                  (flat_map (row_touches source_data mapping_ws
                               (merged_cells target)) (data_rows mapping_ws)))
        as [Hin|Hout]; [|contradiction (Hk (Hcells k Hout))].
      apply in_flat_map in Hin as (row & Hrow & Hin).
      apply row_touches_spec in Hin as (m & tr & Hc & Hr & Hor).
      exists source_ws, mapping_ws, source_data, row, m, tr. auto 10.
  - split; [auto | split; [| discriminate]].
    intros ? [= <-]. exists target. repeat split; [assumption | congruence].
Qed.

(** ** Loading the source rows *)

Lemma data_rows_range (ws : worksheet) (row : Z) :
  In row (data_rows ws) <-> 2 <= row <= max_row ws.
Proof.
  unfold data_rows. rewrite <- list_elem_of_In, elem_of_seqZ. lia.
Qed.

Lemma source_row_coercible (source_ws : worksheet) (row : Z) :
  row_coercible source_ws row = true ->
  source_row source_ws row =
  Ok (if row_kept source_ws row then Some (record_of source_ws row) else None).
Proof.
  unfold row_coercible, source_row, record_of, row_kept.
  destruct (truthy (cell_value source_ws col_B row)); cbn; [|reflexivity].
  destruct (to_number (cell_value source_ws col_D row)); cbn; [|discriminate].
  destruct (to_number (cell_value source_ws col_F row)); cbn; [|discriminate].
  reflexivity.
Qed.

Lemma load_rows_coercible (source_ws : worksheet) (rows : list Z)
    (acc : list source_record) :
  forallb (row_coercible source_ws) rows = true ->
  load_rows source_ws rows acc =
  Ok (acc ++ List.map (record_of source_ws)
               (List.filter (row_kept source_ws) rows)).
Proof.
  revert acc. induction rows as [|row rows IH]; intros acc.
  - intros _. cbn. rewrite app_nil_r. reflexivity.
  - cbn [forallb load_rows List.filter].
    intros [Hrow Hrows]%andb_true_iff.
    rewrite (source_row_coercible _ _ Hrow). cbn.
    rewrite (IH _ Hrows).
    destruct (row_kept source_ws row); cbn [List.map];
      [rewrite <- app_assoc|]; reflexivity.
Qed.

Lemma find_map {A B : Type} (f : A -> B) (p : B -> bool) (l : list A) :
  List.find p (List.map f l) = option_map f (List.find (fun a => p (f a)) l).
Proof.
  induction l as [|a l IH]; [reflexivity|]. cbn.
  destruct (p (f a)); [reflexivity | exact IH].
Qed.

(** C8, amended.  When the value cells of the kept rows coerce, the source
    index holds, for the rows 2..N in row order, one record for each row
    whose column-B value is truthy (not empty and not zero or [False]),
    built from the text of the key, its normalised form and the two
    coerced values; nothing is merged, so rows with equal normalised keys
    all stay, and matching returns the record of the first kept row, in row
    order, that satisfies the test. *)
Theorem load_source_keeps_truthy_rows (source_ws : worksheet) :
  forallb (row_coercible source_ws) (data_rows source_ws) = true ->
  let kept := List.filter (row_kept source_ws) (data_rows source_ws) in
  load_source source_ws = Ok (List.map (record_of source_ws) kept) /\
  (forall row,
     In row kept <->
     2 <= row <= max_row source_ws /\
     truthy (cell_value source_ws col_B row) = true) /\
  (forall row, In row kept ->
     raw_key (record_of source_ws row) =
       py_str (cell_value source_ws col_B row) /\
     norm_key (record_of source_ws row) =
       normalize (cell_value source_ws col_B row) /\
     to_number (cell_value source_ws col_D row) =
       Ok (current (record_of source_ws row)) /\
     to_number (cell_value source_ws col_F row) =
       Ok (previous (record_of source_ws row))) /\
  (forall nk,
     find_match nk (List.map (record_of source_ws) kept) =
     option_map (record_of source_ws)
       (List.find (fun row => key_match nk (record_of source_ws row)) kept)).
Proof.
  intros Hrows kept. split; [|split; [|split]].
  - unfold load_source. rewrite (load_rows_coercible _ _ [] Hrows).
    reflexivity.
  - intros row. unfold kept. rewrite filter_In, data_rows_range.
    reflexivity.
  - intros row [Hin Hkept]%filter_In.
    rewrite forallb_forall in Hrows. specialize (Hrows row Hin).
    unfold row_coercible in Hrows. rewrite Hkept in Hrows. cbn in Hrows.
    apply andb_true_iff in Hrows as [Hc Hp]. unfold record_of. cbn.
    destruct (to_number (cell_value source_ws col_D row)); [|discriminate].
    destruct (to_number (cell_value source_ws col_F row)); [|discriminate].
    auto.
  - intros nk. apply find_map.
Qed.

(** ** Keys that normalise to the empty text *)

Lemma process_row_matched_missing factor source_data mapping_ws st row m :
  classify source_data mapping_ws row = Matched m ->
  missing_keys
    (final_state (process_row factor source_data mapping_ws st row)) =
  missing_keys st.
Proof.
  unfold classify, process_row. rewrite both_present_negb.
  destruct (both_present mapping_ws row); cbn; [|discriminate].
  destruct (find_match _ source_data) as [m'|]; [|discriminate]. intros _.
  destruct (py_int _) as [r|]; cbn; [|reflexivity].
  destruct (Float.round (Float.mul (current m') factor)); cbn; [|reflexivity].
  destruct (Float.round (Float.mul (previous m') factor)); cbn; [|reflexivity].
  destruct (write_to_cell (target_ws st) col_G r _) as [ws1|]; cbn;
    [|reflexivity].
  destruct (write_to_cell ws1 col_J r _); reflexivity.
Qed.

Lemma find_match_empty_norm (nk : string) (source_data : list source_record)
    (src : source_record) :
  In src source_data -> norm_key src = EmptyString ->
  exists m, find_match nk source_data = Some m.
Proof.
  intros Hin Hk. unfold find_match.
  destruct (List.find (key_match nk) source_data) as [m|] eqn:E; [eauto|].
  pose proof (find_none _ _ E src Hin) as H. unfold key_match in H.
  rewrite Hk, contains_empty, orb_true_r in H. discriminate.
Qed.

(** C9.  The empty text is contained in every text.  So a normalised
    mapping key that is empty matches the first record of a non-empty
    source index, and a source record whose normalised key is empty makes
    every mapping key find a match; a mapping row in either situation is
    matched and leaves [missing_keys] as it was.  A key made of digits,
    such as 123, normalises to the empty text and so finds the first
    record of [acme_records]. *)
Theorem empty_key_matches_first (source_data : list source_record)
    (mapping_ws : worksheet) :
  (forall first rest, find_match EmptyString (first :: rest) = Some first) /\
  (forall nk src, In src source_data -> norm_key src = EmptyString ->
     exists m, find_match nk source_data = Some m) /\
  (forall row first rest,
     both_present mapping_ws row = true ->
     normalize (cell_value mapping_ws col_A row) = EmptyString ->
     source_data = first :: rest ->
     classify source_data mapping_ws row = Matched first) /\
  (forall factor st row,
     both_present mapping_ws row = true ->
     (normalize (cell_value mapping_ws col_A row) = EmptyString /\
      source_data <> []) \/
     (exists src, In src source_data /\ norm_key src = EmptyString) ->
     exists m,
       classify source_data mapping_ws row = Matched m /\
       missing_keys
         (final_state (process_row factor source_data mapping_ws st row)) =
       missing_keys st) /\
  normalize (VInt 123) = EmptyString /\
  classify acme_records numeric_key_mapping 2 =
    Matched {| raw_key := "Acme Corp"; norm_key := "acmecorp";
               current := S754_finite false 7036874417766400 (-46);
               previous := S754_finite false 7036874417766400 (-45) |}.
Proof.
  assert (Hfirst : forall first rest,
            find_match EmptyString (first :: rest) = Some first).
  { intros first rest. unfold find_match, key_match. cbn [List.find].
    rewrite contains_empty. reflexivity. }
  split; [exact Hfirst|].
  split; [intros nk src; apply find_match_empty_norm|].
  split; [|split; [|split; vm_compute; reflexivity]].
  - intros row first rest Hb Hk ->. unfold classify.
    rewrite Hb, Hk, Hfirst. reflexivity.
  - intros factor st row Hb Hcase.
    assert (exists m, find_match (normalize (cell_value mapping_ws col_A row))
                        source_data = Some m) as [m Hm].
    { destruct Hcase as [[Hk Hne] | (src & Hin & Hk)].
      - rewrite Hk. destruct source_data as [|first rest]; [contradiction|].
        eauto.
      - eapply find_match_empty_norm; eassumption. }
    assert (Hc : classify source_data mapping_ws row = Matched m).
    { unfold classify. rewrite Hb, Hm. reflexivity. }
    exists m. split; [exact Hc|].
    apply process_row_matched_missing with (m := m). exact Hc.
Qed.

(** ** A target row that is no number *)

Lemma process_row_bad_target factor source_data mapping_ws st row m e :
  classify source_data mapping_ws row = Matched m ->
  py_int (cell_value mapping_ws col_B row) = Raise e ->
  process_row factor source_data mapping_ws st row = Aborted e st.
Proof.
  unfold classify, process_row. rewrite both_present_negb.
  destruct (both_present mapping_ws row); cbn; [|discriminate].
  destruct (find_match _ source_data) as [m'|]; [|discriminate].
  intros _ ->. reflexivity.
Qed.

(** C7, at the failing input.  The mapping sheet pairs "Acme" with the
    target row "abc" and "Acme Corp" with the target row 5.  [int("abc")]
    raises [ValueError] in the first of these rows; the exception ends the
    run, nothing is filled and the target sheet is as it was, although the
    second row is in order.  In general a matched row whose target row does
    not convert ends the loop with the exception of the conversion, and the
    rows after it are not looked at. *)
Theorem bad_target_row_aborts_run :
  let r := run_etl {["S" := acme_source]} {["Sheet1" := bad_row_mapping]}
             {["T" := merged_target]} "S" "T" two in
  py_int (cell_value bad_row_mapping col_B 2) = Raise ValueError /\
  row_writable two acme_records bad_row_mapping 3 = true /\
  out_error r = Some ValueError /\
  out_filled r = 0 /\
  out_target r !! "T" = Some merged_target /\
  (forall factor source_data mapping_ws st row rest m e,
     classify source_data mapping_ws row = Matched m ->
     py_int (cell_value mapping_ws col_B row) = Raise e ->
     mapping_loop factor source_data mapping_ws (row :: rest) st =
     Aborted e st).
Proof.
  cbv zeta.
  split; [vm_compute; reflexivity|]. split; [vm_compute; reflexivity|].
  split; [vm_compute; reflexivity|]. split; [vm_compute; reflexivity|].
  split; [vm_compute; reflexivity|].
  intros factor source_data mapping_ws st row rest m e Hc He.
  cbn [mapping_loop].
  rewrite (process_row_bad_target _ _ _ _ _ _ _ Hc He). reflexivity.
Qed.

(** * Further properties of the run *)

(** ** Rows in sequence *)

Lemma mapping_loop_concat factor source_data mapping_ws rows1 rows2 st :
  mapping_loop factor source_data mapping_ws (rows1 ++ rows2) st =
  match mapping_loop factor source_data mapping_ws rows1 st with
  | Done st1 => mapping_loop factor source_data mapping_ws rows2 st1
  | Aborted e st1 => Aborted e st1
  end.
Proof.
  revert st. induction rows1 as [|row rows1 IH]; intros st; [reflexivity|].
  cbn [app mapping_loop].
  destruct (process_row factor source_data mapping_ws st row);
    [apply IH | reflexivity].
Qed.

(** A row that is not in order raises before its first write. *)
Lemma process_row_not_writable factor source_data mapping_ws st row :
  row_writable factor source_data mapping_ws row = false ->
  exists e, process_row factor source_data mapping_ws st row = Aborted e st.
Proof.
  unfold row_writable, process_row, classify, scaled.
  rewrite both_present_negb.
  destruct (both_present mapping_ws row); [|discriminate]. cbn.
  destruct (find_match _ source_data) as [m|]; [|discriminate].
  destruct (py_int _) as [r|e]; cbn; [|eauto].
  destruct (Float.round (Float.mul (current m) factor)) as [c|e]; cbn;
    [|eauto].
  destruct (Float.round (Float.mul (previous m) factor)) as [p|e]; cbn;
    [|eauto].
  rewrite !andb_true_r. intros Hv. unfold write_to_cell. rewrite Hv. eauto.
Qed.

(** X3.  The loop stops at the first row that is not in order: the rows
    before it are carried out, their writes and counts are what the state
    holds when the exception leaves the loop, and the rows after it are not
    looked at. *)
Theorem mapping_loop_stops_at_first_bad_row factor source_data mapping_ws
    before row after st :
  forallb (row_writable factor source_data mapping_ws) before = true ->
  row_writable factor source_data mapping_ws row = false ->
  exists e st1,
    mapping_loop factor source_data mapping_ws before st = Done st1 /\
    mapping_loop factor source_data mapping_ws (before ++ row :: after) st =
      Aborted e st1 /\
    write_all (target_ws st)
      (flat_map (row_writes factor source_data mapping_ws) before) =
      Ok (target_ws st1) /\
    filled st1 =
      filled st +
      Z.of_nat (length (List.filter (matched_row source_data mapping_ws)
                          before)).
Proof.
  intros Hbefore Hrow.
  destruct (mapping_loop_writable factor _ _ _ st Hbefore)
    as (st1 & Hloop & Hw & Hf & _).
  destruct (process_row_not_writable factor _ _ st1 _ Hrow) as [e He].
  exists e, st1. split; [exact Hloop|]. split; [|split; assumption].
  rewrite mapping_loop_concat, Hloop. cbn [mapping_loop]. rewrite He.
  reflexivity.
Qed.

(** ** Counting the rows *)

Lemma present_rows_split source_data mapping_ws rows :
  length (List.filter (both_present mapping_ws) rows) =
  (length (List.filter (matched_row source_data mapping_ws) rows) +
   length (List.filter (unmatched_row source_data mapping_ws) rows))%nat.
Proof.
  induction rows as [|row rows IH]; [reflexivity|]. cbn [List.filter].
  unfold matched_row, unmatched_row, classify in *.
  destruct (both_present mapping_ws row); cbn.
  - destruct (find_match _ source_data); cbn; lia.
  - exact IH.
Qed.

(** X4.  When the loop runs through, every row that has both columns
    present was either filled or reported as missing, and no other row was:
    the two statistics grow, together, by the number of such rows. *)
Theorem mapping_loop_accounts_for_present_rows factor source_data mapping_ws
    rows st st' :
  mapping_loop factor source_data mapping_ws rows st = Done st' ->
  filled st' + Z.of_nat (length (missing_keys st')) =
  filled st + Z.of_nat (length (missing_keys st)) +
  Z.of_nat (length (List.filter (both_present mapping_ws) rows)).
Proof.
  intros Hloop.
  pose proof (mapping_loop_done _ _ _ _ _ _ Hloop) as Hrows.
  destruct (mapping_loop_writable factor _ _ _ st Hrows)
    as (st2 & Hloop2 & _ & Hf & Hm).
  rewrite Hloop in Hloop2. injection Hloop2 as <-.
  rewrite Hf, Hm, length_app, length_map.
  rewrite (present_rows_split source_data). lia.
Qed.

(** ** The exceptions of a run *)

Lemma int_of_str_raises (s : string) (e : exn) :
  int_of_str s = Raise e -> e = ValueError.
Proof.
  unfold int_of_str.
  destruct (split_sign (Text.c_strip (Text.to_ascii s))) as [neg body].
  destruct (int_digits 0 false body); [|intros [= <-]; reflexivity].
  destruct (Nat.leb _ _); intros [= <-]; reflexivity.
Qed.

Lemma py_int_raises (v : value) (e : exn) :
  truthy v = true -> py_int v = Raise e ->
  e = ValueError \/ e = OverflowError \/
  (e = TypeError /\ is_temporal v = true).
Proof.
  destruct v as [|b|n|x|s|t]; cbn; try discriminate.
  - intros _. destruct x; cbn; intros [= <-]; auto.
  - intros _ H. left. exact (int_of_str_raises _ _ H).
  - intros _ [= <-]. auto.
Qed.

Lemma round_raises (x : spec_float) (e : exn) :
  Float.round x = Raise e -> e = ValueError \/ e = OverflowError.
Proof. destruct x; cbn; intros [= <-]; auto. Qed.

Lemma write_to_cell_raises ws col row v e :
  write_to_cell ws col row v = Raise e -> e = ValueError.
Proof.
  unfold write_to_cell. destruct (valid_row row); intros [= <-]. reflexivity.
Qed.

Lemma process_row_raises factor source_data mapping_ws st row e st' :
  process_row factor source_data mapping_ws st row = Aborted e st' ->
  e = ValueError \/ e = OverflowError \/
  (e = TypeError /\ is_temporal (cell_value mapping_ws col_B row) = true).
Proof.
  unfold process_row. rewrite both_present_negb. unfold both_present.
  destruct (truthy (cell_value mapping_ws col_A row)); [|discriminate].
  destruct (truthy (cell_value mapping_ws col_B row)) eqn:Ht; [|discriminate].
  cbn. destruct (find_match _ source_data) as [m|]; [|discriminate].
  destruct (py_int _) as [r|e1] eqn:Hr; cbn.
  - destruct (Float.round (Float.mul (current m) factor)) as [c|e2] eqn:Hc;
      cbn; [|intros [= <- _]; destruct (round_raises _ _ Hc); auto].
    destruct (Float.round (Float.mul (previous m) factor)) as [p|e3] eqn:Hp;
      cbn; [|intros [= <- _]; destruct (round_raises _ _ Hp); auto].
    destruct (write_to_cell (target_ws st) col_G r _) as [ws1|e4] eqn:W1;
      [|intros [= <- _]; left; eapply write_to_cell_raises; eassumption].
    destruct (write_to_cell ws1 col_J r _) as [ws2|e5] eqn:W2;
      [discriminate|].
    intros [= <- _]. left. eapply write_to_cell_raises; eassumption.
  - intros [= <- _]. eapply py_int_raises; eassumption.
Qed.

Lemma mapping_loop_raises factor source_data mapping_ws rows st e st' :
  mapping_loop factor source_data mapping_ws rows st = Aborted e st' ->
  e = ValueError \/ e = OverflowError \/
  (e = TypeError /\
   exists row, In row rows /\
     is_temporal (cell_value mapping_ws col_B row) = true).
Proof.
  revert st. induction rows as [|row rows IH]; intros st; [discriminate|].
  cbn [mapping_loop].
  destruct (process_row factor source_data mapping_ws st row) as [st1|e1 st1]
    eqn:E.
  - intros H. destruct (IH _ H) as [H1|[H1|[H1 (r & Hr & Ht)]]]; auto.
    right. right. split; [exact H1|]. exists r. split; [right; exact Hr | exact Ht].
  - intros [= <- _].
    destruct (process_row_raises _ _ _ _ _ _ _ E) as [H1|[H1|[H1 Ht]]]; auto.
    right. right. split; [exact H1|]. exists row. split; [left; reflexivity | exact Ht].
Qed.

Lemma load_rows_raises source_ws rows acc e :
  load_rows source_ws rows acc = Raise e -> e = OverflowError.
Proof.
  revert acc. induction rows as [|row rows IH]; intros acc; [discriminate|].
  cbn [load_rows]. unfold source_row.
  destruct (truthy (cell_value source_ws col_B row)); cbn; [|apply IH].
  destruct (to_number (cell_value source_ws col_D row)) as [c|e1] eqn:Hc; cbn;
    [|intros [= <-]; apply (to_number_raises _ _ Hc)].
  destruct (to_number (cell_value source_ws col_F row)) as [p|e2] eqn:Hp; cbn;
    [apply IH | intros [= <-]; apply (to_number_raises _ _ Hp)].
Qed.

(** The exceptions of a run: a missing sheet gives [KeyError], the source
    loop raises [OverflowError] only, and the mapping loop raises
    [TypeError] only for a target row that is a date or time. *)
Lemma run_etl_error_kinds
    (source_wb mapping_wb target_wb : gmap string worksheet)
    (source_sheet target_sheet : string) (factor : spec_float) (e : exn) :
  out_error (run_etl source_wb mapping_wb target_wb source_sheet target_sheet
               factor) = Some e ->
  (e = KeyError /\
   (source_wb !! source_sheet = None \/ mapping_wb !! "Sheet1" = None \/
    target_wb !! target_sheet = None)) \/
  e = OverflowError \/ e = ValueError \/
  (e = TypeError /\
   exists mapping_ws row,
     mapping_wb !! "Sheet1" = Some mapping_ws /\
     In row (data_rows mapping_ws) /\
     is_temporal (cell_value mapping_ws col_B row) = true).
Proof.
  unfold run_etl, get_sheet.
  destruct (source_wb !! source_sheet) as [source_ws|]; cbn;
    [|intros [= <-]; auto].
  destruct (mapping_wb !! "Sheet1") as [mapping_ws|]; cbn;
    [|intros [= <-]; auto].
  destruct (target_wb !! target_sheet) as [target|]; cbn;
    [|intros [= <-]; auto 6].
  destruct (load_source source_ws) as [source_data|e0] eqn:Hl; cbn.
  - destruct (mapping_loop factor source_data mapping_ws _ _) as [st'|e1 st']
      eqn:Hloop; cbn; [discriminate|].
    intros [= <-].
    destruct (mapping_loop_raises _ _ _ _ _ _ _ Hloop)
      as [H|[H|[H (row & Hr & Ht)]]]; auto.
    right. right. right. split; [exact H|]. exists mapping_ws, row. auto.
  - intros [= <-]. pose proof (load_rows_raises _ _ _ _ Hl). auto.
Qed.

(** X5.  A run ends with [KeyError] exactly when the source sheet, the
    sheet "Sheet1" of the mapping workbook or the target sheet does not
    exist, and then nothing was read or written.  It ends with [TypeError]
    only when the target-row cell of some mapping row holds a date or
    time. *)
Theorem run_etl_exceptions
    (source_wb mapping_wb target_wb : gmap string worksheet)
    (source_sheet target_sheet : string) (factor : spec_float) :
  let r := run_etl source_wb mapping_wb target_wb source_sheet target_sheet
             factor in
  (out_error r = Some KeyError <->
   source_wb !! source_sheet = None \/ mapping_wb !! "Sheet1" = None \/
   target_wb !! target_sheet = None) /\
  (out_error r = Some KeyError ->
   out_target r = target_wb /\ out_filled r = 0 /\ out_missing r = []) /\
  (out_error r = Some TypeError ->
   exists mapping_ws row,
     mapping_wb !! "Sheet1" = Some mapping_ws /\
     In row (data_rows mapping_ws) /\
     is_temporal (cell_value mapping_ws col_B row) = true).
Proof.
  cbv zeta.
  assert (Hkey : out_error (run_etl source_wb mapping_wb target_wb
                   source_sheet target_sheet factor) = Some KeyError ->
                 source_wb !! source_sheet = None \/
                 mapping_wb !! "Sheet1" = None \/
                 target_wb !! target_sheet = None).
  { intros H. destruct (run_etl_error_kinds _ _ _ _ _ _ _ H)
      as [[_ Hk]|[Hk|[Hk|[Hk _]]]]; [exact Hk | discriminate ..]. }
  split; [split; [exact Hkey|]|split].
  - unfold run_etl, get_sheet.
    destruct (source_wb !! source_sheet) as [source_ws|]; cbn;
      [|reflexivity].
    destruct (mapping_wb !! "Sheet1") as [mapping_ws|]; cbn; [|reflexivity].
    destruct (target_wb !! target_sheet) as [target|]; cbn; [|reflexivity].
    intros [H|[H|H]]; discriminate.
  - intros H. specialize (Hkey H). revert H Hkey. unfold run_etl, get_sheet.
    destruct (source_wb !! source_sheet) as [source_ws|]; cbn; [|auto].
    destruct (mapping_wb !! "Sheet1") as [mapping_ws|]; cbn; [|auto].
    destruct (target_wb !! target_sheet) as [target|]; cbn; [|auto].
    intros _ [H|[H|H]]; discriminate.
  - intros H. destruct (run_etl_error_kinds _ _ _ _ _ _ _ H)
      as [[Hk _]|[Hk|[Hk|[_ Hk]]]]; [discriminate .. | exact Hk].
Qed.


(** ** The rows a loop visits *)

Lemma max_row_bounds (ws : worksheet) :
  1 <= max_row ws /\
  forall k v, cells ws !! k = Some v -> k.1 <= max_row ws.
Proof.
  unfold max_row.
  apply (map_fold_weak_ind
           (fun r (m : gmap (Z * Z) value) =>
              1 <= r /\ forall k v, m !! k = Some v -> k.1 <= r)).
  - split; [lia|]. intros k v H. rewrite lookup_empty in H. discriminate.
  - intros i x m r Hi [H1 H2]. split; [lia|].
    intros k v Hk. destruct (decide (i = k)) as [->|Hne].
    + lia.
    + rewrite lookup_insert_ne in Hk by exact Hne.
      specialize (H2 k v Hk). lia.
Qed.

(** X6.  The loops over [range(2, max_row + 1)] miss no row: a row from 2
    on in which some cell of the sheet holds a value is visited, row 1 is
    never visited, and the rows are visited once each in increasing
    order. *)
Theorem data_rows_cover (ws : worksheet) :
  (forall col row,
     2 <= row -> cell_value ws col row <> VNone -> In row (data_rows ws)) /\
  ~ In 1 (data_rows ws) /\
  (forall i j a b,
     data_rows ws !! i = Some a -> data_rows ws !! j = Some b ->
     (i < j)%nat -> a < b).
Proof.
  split; [|split].
  - intros col row Hrow Hv. apply data_rows_range. split; [exact Hrow|].
    unfold cell_value in Hv.
    destruct (cells ws !! (row, col)) as [v|] eqn:E; [|contradiction].
    exact (proj2 (max_row_bounds ws) _ _ E).
  - rewrite data_rows_range. lia.
  - unfold data_rows. intros i j a b Hi Hj Hij.
    apply lookup_seqZ in Hi as [-> _]. apply lookup_seqZ in Hj as [-> _]. lia.
Qed.

(** ** Runs with nothing to do *)

Lemma classify_no_source mapping_ws row :
  classify [] mapping_ws row =
  if both_present mapping_ws row
  then Unmatched (cell_value mapping_ws col_A row) else Skipped.
Proof. reflexivity. Qed.

Lemma row_writes_no_source factor mapping_ws rows :
  flat_map (row_writes factor [] mapping_ws) rows = [].
Proof.
  induction rows as [|row rows IH]; [reflexivity|].
  cbn [flat_map]. rewrite IH. unfold row_writes.
  rewrite classify_no_source. destruct (both_present mapping_ws row);
    reflexivity.
Qed.

Lemma matched_rows_no_source mapping_ws rows :
  List.filter (matched_row [] mapping_ws) rows = [].
Proof.
  induction rows as [|row rows IH]; [reflexivity|].
  cbn [List.filter]. unfold matched_row at 1.
  rewrite classify_no_source. destruct (both_present mapping_ws row);
    exact IH.
Qed.

Lemma kept_rows_none (source_ws : worksheet) (rows : list Z) :
  forallb (fun row => negb (row_kept source_ws row)) rows = true ->
  List.filter (row_kept source_ws) rows = [].
Proof.
  induction rows as [|row rows IH]; [reflexivity|]. cbn [forallb List.filter].
  intros [Hrow Hrows]%andb_true_iff.
  destruct (row_kept source_ws row); [discriminate | auto].
Qed.

Lemma load_source_no_keys (source_ws : worksheet) :
  forallb (fun row => negb (row_kept source_ws row)) (data_rows source_ws)
    = true ->
  load_source source_ws = Ok [].
Proof.
  intros H. unfold load_source.
  rewrite load_rows_coercible.
  - rewrite (kept_rows_none _ _ H). reflexivity.
  - rewrite forallb_forall in H. apply forallb_forall. intros row Hin.
    unfold row_coercible. rewrite (H row Hin). reflexivity.
Qed.

(** X7.  When no data row of the source sheet has a key, the run ends
    without an exception, fills nothing, leaves the target workbook exactly
    as it was, and reports the key of every mapping row that has both
    columns present, in row order. *)
Theorem run_etl_without_source_keys
    (source_wb mapping_wb target_wb : gmap string worksheet)
    (source_sheet target_sheet : string) (factor : spec_float)
    (source_ws mapping_ws target : worksheet) :
  source_wb !! source_sheet = Some source_ws ->
  mapping_wb !! "Sheet1" = Some mapping_ws ->
  target_wb !! target_sheet = Some target ->
  forallb (fun row => negb (row_kept source_ws row)) (data_rows source_ws)
    = true ->
  let r := run_etl source_wb mapping_wb target_wb source_sheet target_sheet
             factor in
  out_error r = None /\
  out_filled r = 0 /\
  out_target r = target_wb /\
  out_missing r =
    List.map (cell_value mapping_ws col_A)
      (List.filter (both_present mapping_ws) (data_rows mapping_ws)).
Proof.
  intros Hs Hm Ht Hkeys r. subst r.
  pose proof (load_source_no_keys _ Hkeys) as Hl.
  rewrite (run_etl_loaded _ _ _ _ _ _ _ _ _ _ Hs Hm Ht Hl). cbv zeta.
  assert (Hrows : forallb (row_writable factor [] mapping_ws)
                    (data_rows mapping_ws) = true).
  { apply forallb_forall. intros row _. unfold row_writable.
    rewrite classify_no_source. destruct (both_present mapping_ws row);
      reflexivity. }
  destruct (mapping_loop_writable factor [] mapping_ws _
              {| target_ws := target; filled := 0; missing_keys := [] |} Hrows)
    as (st' & Hloop & Hw & Hf & Hmiss).
  rewrite Hloop. cbn [final_state out_error out_filled out_target out_missing
    target_ws filled missing_keys] in *.
  rewrite row_writes_no_source in Hw. cbn in Hw. injection Hw as <-.
  split; [reflexivity|]. split; [|split].
  - rewrite Hf, matched_rows_no_source. reflexivity.
  - apply insert_id. exact Ht.
  - rewrite Hmiss. cbn [app]. f_equal. apply filter_ext. intros row.
    unfold unmatched_row. rewrite classify_no_source.
    destruct (both_present mapping_ws row); reflexivity.
Qed.

(** X8.  When the cells of the mapping sheet all lie in row 1 (a header
    and nothing else, or no cell at all), the loop has no row to visit: the
    run ends without an exception, the counts are zero and the target
    workbook is exactly as it was. *)
Theorem run_etl_header_only_mapping
    (source_wb mapping_wb target_wb : gmap string worksheet)
    (source_sheet target_sheet : string) (factor : spec_float)
    (source_ws mapping_ws target : worksheet)
    (source_data : list source_record) :
  source_wb !! source_sheet = Some source_ws ->
  mapping_wb !! "Sheet1" = Some mapping_ws ->
  target_wb !! target_sheet = Some target ->
  load_source source_ws = Ok source_data ->
  (forall k, is_Some (cells mapping_ws !! k) -> k.1 <= 1) ->
  let r := run_etl source_wb mapping_wb target_wb source_sheet target_sheet
             factor in
  out_error r = None /\ out_filled r = 0 /\ out_missing r = [] /\
  out_target r = target_wb.
Proof.
  intros Hs Hm Ht Hl Hcells r. subst r.
  rewrite (run_etl_loaded _ _ _ _ _ _ _ _ _ _ Hs Hm Ht Hl). cbv zeta.
  assert (Hrows : data_rows mapping_ws = []).
  { unfold data_rows. apply seqZ_nil.
    assert (max_row mapping_ws <= 1); [|lia].
    unfold max_row.
    apply (map_fold_weak_ind
             (fun r (m : gmap (Z * Z) value) =>
                (forall k, is_Some (m !! k) -> k.1 <= 1) -> r <= 1));
      [lia | | exact Hcells].
    intros i x m r Hi IH Hall.
    assert (i.1 <= 1) by (apply Hall; rewrite lookup_insert_eq; eauto).
    assert (r <= 1); [|lia].
    apply IH. intros k Hk. apply Hall.
    destruct (decide (i = k)) as [->|Hne];
      [rewrite lookup_insert_eq; eauto | rewrite lookup_insert_ne; auto]. }
  rewrite Hrows. cbn. repeat split. apply insert_id. exact Ht.
Qed.

(** ** The messages after the loop *)

Lemma py_join_raises (sep : string) (items : list value) :
  (exists e, py_join sep items = Raise e) <->
  exists v, In v items /\ is_text v = false.
Proof.
  induction items as [|v items IH].
  - split; [intros [e H]; discriminate | intros (v & [] & _)].
  - destruct v as [|b|n|x|s|t];
      try (split; [intros _; eexists; split; [left; reflexivity | reflexivity]
                  | intros _; eexists; reflexivity]).
    cbn [py_join]. destruct items as [|w items].
    + split; [intros [e H]; discriminate|].
      intros (v & [<-|[]] & Hv). discriminate.
    + split.
      * intros [e H].
        destruct (py_join sep (w :: items)) as [t|e'] eqn:E;
          [discriminate|].
        destruct (proj1 IH (ex_intro _ e' eq_refl)) as (v & Hin & Hv).
        exists v. split; [right; exact Hin | exact Hv].
      * intros (v & [<-|Hin] & Hv); [discriminate|].
        destruct (proj2 IH (ex_intro _ v (conj Hin Hv))) as [e' He'].
        rewrite He'. eexists. reflexivity.
Qed.

Lemma py_join_exn (sep : string) (items : list value) (e : exn) :
  py_join sep items = Raise e -> e = TypeError.
Proof.
  induction items as [|v items IH]; [discriminate|].
  destruct v as [|b|n|x|s|t]; cbn [py_join];
    try (intros [= <-]; reflexivity).
  destruct items as [|w items]; [discriminate|].
  destruct (py_join sep (w :: items)) as [t|e'] eqn:E; cbn; [discriminate|].
  intros [= <-]. apply IH. reflexivity.
Qed.

(** X9.  The workbook is offered for download exactly when the run ended
    without an exception and every unresolved key is a text.  The block is
    refused with [TypeError] exactly when the loop itself raised it, or the
    loop ran through and an unresolved key is no text (a number, a boolean,
    a date or time), because the warning joins the keys as texts. *)
Theorem etl_block_offers_download
    (source_wb mapping_wb target_wb : gmap string worksheet)
    (source_sheet target_sheet : string) (factor : spec_float) :
  let r := run_etl source_wb mapping_wb target_wb source_sheet target_sheet
             factor in
  let b := etl_block source_wb mapping_wb target_wb source_sheet target_sheet
             factor in
  ((exists s, b = Offered (out_target r) s) <->
   out_error r = None /\ forallb is_text (out_missing r) = true) /\
  (b = Refused TypeError <->
   out_error r = Some TypeError \/
   (out_error r = None /\
    exists v, In v (out_missing r) /\ is_text v = false)).
Proof.
  cbv zeta. unfold etl_block.
  destruct (out_error (run_etl _ _ _ _ _ _)) as [e|].
  - split; split.
    + intros [s H]. discriminate.
    + intros [H _]. discriminate.
    + intros [= ->]. left. reflexivity.
    + intros [[= ->]|[H _]]; [reflexivity | discriminate].
  - unfold report.
    set (missing := out_missing _).
    destruct missing as [|v rest] eqn:E.
    + split; split.
      * intros _. auto.
      * intros _. eexists. reflexivity.
      * discriminate.
      * intros [H|(_ & v & [] & _)]. discriminate.
    + rewrite <- E. clear E.
      destruct (py_join ", " missing) as [t|e] eqn:Hj; cbn.
      * assert (Hall : forallb is_text missing = true).
        { apply forallb_forall. intros w Hw.
          destruct (is_text w) eqn:Ew; [reflexivity|].
          destruct (proj2 (py_join_raises ", " missing)
                      (ex_intro _ w (conj Hw Ew))) as [e He].
          rewrite He in Hj. discriminate. }
        split; split.
        -- intros _. auto.
        -- intros _. eexists. reflexivity.
        -- discriminate.
        -- intros [H|(_ & w & Hw & Ew)]; [discriminate|].
           rewrite forallb_forall in Hall. rewrite (Hall w Hw) in Ew.
           discriminate.
      * pose proof (py_join_exn _ _ _ Hj) as ->.
        destruct (proj1 (py_join_raises ", " missing)
                    (ex_intro _ TypeError Hj)) as (w & Hw & Ew).
        split; split.
        -- intros [s H]. discriminate.
        -- intros [_ Hall]. rewrite forallb_forall in Hall.
           rewrite (Hall w Hw) in Ew. discriminate.
        -- intros _. right. split; [reflexivity | eauto].
        -- reflexivity.
Qed.


(** ** More on normalised keys *)

Lemma lower_az (s : string) :
  Text.all_chars Text.is_az s = true -> Text.lower s = s.
Proof.
  induction s as [|c s IH]; [reflexivity|].
  cbn [Text.all_chars]. intros [Hc Hs]%andb_true_iff.
  specialize (IH Hs).
  destruct c as [[] [] [] [] [] [] [] []]; try discriminate Hc;
    cbn [Text.lower]; f_equal; exact IH.
Qed.

Lemma re_sub_non_az_fixed (s : string) :
  Text.all_chars Text.is_az s = true -> Text.re_sub_non_az s = s.
Proof.
  induction s as [|c s IH]; [reflexivity|]. cbn [Text.all_chars Text.re_sub_non_az].
  intros [Hc Hs]%andb_true_iff. rewrite Hc, IH; auto.
Qed.

Lemma normalize_az (v : value) :
  Text.all_chars Text.is_az (normalize v) = true.
Proof. destruct v; try reflexivity; apply re_sub_non_az_only. Qed.

(** X10.  Normalising is idempotent: a normalised key, normalised again as
    a text, is itself.  A key column that already holds normalised keys is
    therefore matched on exactly those keys. *)
Theorem normalize_idempotent (v : value) :
  normalize (VStr (normalize v)) = normalize v.
Proof.
  pose proof (normalize_az v) as H. unfold normalize at 1. cbn [py_str].
  rewrite (lower_az _ H). apply re_sub_non_az_fixed. exact H.
Qed.

Lemma lower_cons_ascii (c : ascii) (s : string) :
  Text.is_ascii c = true ->
  Text.lower (String c s) = String (Text.lower_ascii c) (Text.lower s).
Proof.
  intros Hc.
  destruct c as [[] [] [] [] [] [] [] []]; try discriminate Hc; reflexivity.
Qed.

Lemma lower_app_ascii (a b : string) :
  Text.all_chars Text.is_ascii a = true ->
  Text.lower (a +:+ b) = Text.lower a +:+ Text.lower b.
Proof.
  induction a as [|c a IH]; [reflexivity|].
  cbn [Text.all_chars]. intros [Hc Ha]%andb_true_iff.
  rewrite append_cons, !lower_cons_ascii, append_cons, IH by assumption.
  reflexivity.
Qed.

Lemma re_sub_non_az_app (a b : string) :
  Text.re_sub_non_az (a +:+ b) =
  Text.re_sub_non_az a +:+ Text.re_sub_non_az b.
Proof.
  induction a as [|c a IH]; [reflexivity|].
  rewrite append_cons. cbn [Text.re_sub_non_az].
  destruct (Text.is_az c); [rewrite append_cons|]; congruence.
Qed.

Lemma normalize_text_app (a b : string) :
  Text.all_chars Text.is_ascii a = true ->
  normalize (VStr (a +:+ b)) = normalize (VStr a) +:+ normalize (VStr b).
Proof.
  intros Ha. unfold normalize. cbn [py_str].
  rewrite lower_app_ascii by exact Ha. apply re_sub_non_az_app.
Qed.

(** X11.  Normalising distributes over concatenation: for a text [a] of
    ASCII characters and any text [b], the normalised form of [a] followed
    by [b] is the normalised form of [a] followed by that of [b]. *)
Theorem normalize_app (a b : string) :
  Text.all_chars Text.is_ascii a = true ->
  normalize (VStr (a +:+ b)) = normalize (VStr a) +:+ normalize (VStr b).
Proof. apply normalize_text_app. Qed.

(** X12.  Inside a text whose earlier part is ASCII, an ASCII character
    that is no letter (a digit, a space, punctuation) can be dropped, and a
    capital can be replaced by its small letter, without changing the
    normalised key: keys that differ only in case, spacing and punctuation
    normalise alike. *)
Theorem normalize_ignores_case_and_separators (a b : string) (c : ascii) :
  Text.all_chars Text.is_ascii a = true ->
  Text.is_ascii c = true ->
  normalize (VStr (a +:+ String c b)) =
    normalize (VStr (a +:+ String (Text.lower_ascii c) b)) /\
  (Text.is_az c = false -> Text.is_upper c = false ->
   normalize (VStr (a +:+ String c b)) = normalize (VStr (a +:+ b))).
Proof.
  intros Ha Hc. rewrite !normalize_text_app by exact Ha.
  assert (Hlow : Text.is_ascii (Text.lower_ascii c) = true).
  { destruct c as [[] [] [] [] [] [] [] []]; try discriminate Hc; reflexivity. }
  assert (Hidem : Text.lower_ascii (Text.lower_ascii c) = Text.lower_ascii c).
  { destruct c as [[] [] [] [] [] [] [] []]; reflexivity. }
  split.
  - f_equal. unfold normalize. cbn [py_str].
    rewrite !lower_cons_ascii, Hidem by assumption. reflexivity.
  - intros Haz Hup. f_equal. unfold normalize. cbn [py_str].
    rewrite lower_cons_ascii by exact Hc. unfold Text.lower_ascii.
    rewrite Hup. cbn [Text.re_sub_non_az]. rewrite Haz. reflexivity.
Qed.

Lemma contains_refl (s : string) : Text.contains s s = true.
Proof.
  apply contains_is_substring. exists EmptyString, EmptyString.
  rewrite append_nil. induction s as [|c s IH]; [reflexivity|].
  rewrite append_cons. congruence.
Qed.

(** X13.  A mapping row with both columns present whose key normalises to
    the same text as the key of some source record is matched, by that
    record or by an earlier one that also passes the test, and is not
    reported as missing. *)
Theorem equal_normalized_keys_match factor source_data mapping_ws st row src :
  both_present mapping_ws row = true ->
  In src source_data ->
  norm_key src = normalize (cell_value mapping_ws col_A row) ->
  exists m,
    classify source_data mapping_ws row = Matched m /\
    key_match (normalize (cell_value mapping_ws col_A row)) m = true /\
    missing_keys
      (final_state (process_row factor source_data mapping_ws st row)) =
    missing_keys st.
Proof.
  intros Hb Hin Hk.
  destruct (find_match (normalize (cell_value mapping_ws col_A row))
              source_data) as [m|] eqn:E.
  - assert (Hc : classify source_data mapping_ws row = Matched m).
    { unfold classify. rewrite Hb, E. reflexivity. }
    exists m. split; [exact Hc|]. split.
    + apply find_some in E. tauto.
    + apply process_row_matched_missing with (m := m). exact Hc.
  - pose proof (find_none _ _ E src Hin) as H. unfold key_match in H.
    rewrite Hk, contains_refl in H. discriminate.
Qed.

(** ** Writes to different cells *)

(** X14.  Two writes whose addresses land on different cells can be done
    in either order: the resulting sheet, or the exception, is the same. *)
Theorem write_to_cell_commute (ws : worksheet) (c1 r1 c2 r2 : Z)
    (v1 v2 : value) :
  landing_cell (merged_cells ws) c1 r1 <> landing_cell (merged_cells ws) c2 r2 ->
  (ws1 ← write_to_cell ws c1 r1 v1; write_to_cell ws1 c2 r2 v2) =
  (ws2 ← write_to_cell ws c2 r2 v2; write_to_cell ws2 c1 r1 v1).
Proof.
  intros Hne. unfold write_to_cell.
  destruct (valid_row r1), (valid_row r2); cbn; try reflexivity.
  rewrite !write_scan_landing. cbn [merged_cells set_cell cells].
  f_equal. unfold set_cell. cbn. f_equal.
  apply insert_insert_ne.
  destruct (landing_cell (merged_cells ws) c1 r1),
    (landing_cell (merged_cells ws) c2 r2). cbn. congruence.
Qed.

(** ** Thousands separators *)

Lemma remove_comma_cons (c : ascii) (s : string) :
  Text.remove_all "," (String c s) =
  if Ascii.eqb c "," then Text.remove_all "," s
  else String c (Text.remove_all "," s).
Proof.
  unfold Text.remove_all. cbn [Text.remove_from String.prefix String.length Nat.pred].
  destruct (ascii_dec "," c) as [<-|Hne]; [destruct s; reflexivity|].
  destruct (Ascii.eqb_spec c ","); [congruence | reflexivity].
Qed.

Lemma remove_comma_app (a b : string) :
  Text.remove_all "," (a +:+ b) =
  Text.remove_all "," a +:+ Text.remove_all "," b.
Proof.
  induction a as [|c a IH]; [reflexivity|].
  rewrite append_cons, !remove_comma_cons.
  destruct (Ascii.eqb c ","); [|rewrite append_cons]; congruence.
Qed.

(** X15.  A comma anywhere in a text does not change what [to_number]
    returns: the text with the comma and the text without it coerce to the
    same result. *)
Theorem to_number_ignores_commas (a b : string) :
  to_number (VStr (a +:+ String "," b)) = to_number (VStr (a +:+ b)).
Proof.
  cbn [to_number]. unfold number_in.
  rewrite !remove_comma_app, remove_comma_cons. reflexivity.
Qed.


(** ** Exact integer arithmetic in floats *)

Lemma iter_shr_exact (k m : positive) :
  SpecFloat.iter_pos shr_1 k
    {| shr_m := Zpos (Pos.iter xO m k); shr_r := false; shr_s := false |} =
  {| shr_m := Zpos m; shr_r := false; shr_s := false |}.
Proof.
  revert m. induction k as [k IH|k IH|]; intros m; cbn [SpecFloat.iter_pos Pos.iter].
  - cbn [shr_1 orb]. rewrite IH, IH. reflexivity.
  - rewrite IH, IH. reflexivity.
  - reflexivity.
Qed.

Lemma shr_fexp_keeps (m : positive) (e : Z) :
  Zpos (digits2_pos m) <= 53 -> -1074 <= e ->
  shr_fexp Float.prec Float.emax (Zpos m) e loc_Exact =
  ({| shr_m := Zpos m; shr_r := false; shr_s := false |}, e).
Proof.
  intros Hd He.
  unfold shr_fexp, fexp, emin, Float.prec, Float.emax, shr. cbn [Zdigits2].
  destruct (Z.max (Z.pos (digits2_pos m) + e - 53) (3 - 1024 - 53) - e)
    eqn:E; try reflexivity. lia.
Qed.

Lemma round_aux_keeps (s : bool) (m : positive) (e : Z) :
  Zpos (digits2_pos m) <= 53 -> -1074 <= e <= 971 ->
  binary_round_aux Float.prec Float.emax s (Zpos m) e loc_Exact =
  S754_finite s m e.
Proof.
  intros Hd He. unfold binary_round_aux.
  rewrite shr_fexp_keeps by lia.
  cbn [shr_m loc_of_shr_record round_nearest_even].
  rewrite shr_fexp_keeps by lia. cbn [shr_m]. unfold Float.prec, Float.emax.
  destruct (Z.leb_spec e (1024 - 53)); [reflexivity | lia].
Qed.

Lemma round_aux_shifts (s : bool) (m k : positive) (e : Z) :
  Zpos (digits2_pos m) = 53 -> -1074 <= e + Zpos k <= 971 ->
  binary_round_aux Float.prec Float.emax s (Zpos (Pos.iter xO m k)) e
    loc_Exact =
  S754_finite s m (e + Zpos k).
Proof.
  intros Hd He.
  assert (Hshift : shr_fexp Float.prec Float.emax (Zpos (Pos.iter xO m k)) e
                     loc_Exact =
                   ({| shr_m := Zpos m; shr_r := false; shr_s := false |},
                    e + Zpos k)).
  { unfold shr_fexp, fexp, emin, Float.prec, Float.emax. cbn [Zdigits2].
    rewrite digits2_iter_xO, Pos2Z.inj_add, Hd.
    replace (Z.max (53 + Z.pos k + e - 53) (3 - 1024 - 53) - e)
      with (Zpos k) by lia.
    cbn [shr shr_record_of_loc]. rewrite iter_shr_exact. reflexivity. }
  unfold binary_round_aux.
  rewrite Hshift. cbn [shr_m loc_of_shr_record round_nearest_even].
  rewrite shr_fexp_keeps by lia. cbn [shr_m]. unfold Float.prec, Float.emax.
  destruct (Z.leb_spec (e + Zpos k) (1024 - 53)); [reflexivity | lia].
Qed.

Lemma pos_shift (p : positive) (j : Z) :
  0 <= j -> exists a, Zpos a = Zpos p * 2 ^ j /\
                      Zpos (digits2_pos a) = Zpos (digits2_pos p) + j.
Proof.
  intros Hj. destruct j as [|k|k]; [| |lia].
  - exists p. split; lia.
  - exists (Pos.iter xO p k). rewrite iter_xO_value, digits2_iter_xO. lia.
Qed.

Lemma binary_round_holds (s : bool) (m : positive) :
  Zpos (digits2_pos m) <= 53 ->
  holds (binary_round Float.prec Float.emax s m 0)
    (if s then Zneg m else Zpos m).
Proof.
  intros Hd. unfold binary_round, shl_align, fexp, emin.
  replace (Z.max (Z.pos (digits2_pos m) + 0 - Float.prec)
             (3 - Float.emax - Float.prec) - 0)
    with (Z.pos (digits2_pos m) - 53) by (unfold Float.prec, Float.emax; lia).
  replace (Z.max (Z.pos (digits2_pos m) + 0 - Float.prec)
             (3 - Float.emax - Float.prec))
    with (Z.pos (digits2_pos m) - 53) by (unfold Float.prec, Float.emax; lia).
  destruct (Z.pos (digits2_pos m) - 53) as [|k|k] eqn:E; [| lia |].
  - rewrite round_aux_keeps by lia.
    cbn [holds]. split; [lia|]. exists m. split; [cbn; lia | reflexivity].
  - rewrite round_aux_keeps by (rewrite ?digits2_iter_xO; lia).
    cbn [holds]. split; [lia|].
    exists m. rewrite iter_xO_value. split; reflexivity.
Qed.

Lemma of_int_holds (n : Z) :
  Zdigits2 n <= 53 -> exists x, Float.of_int n = Ok x /\ holds x n.
Proof.
  intros Hd. unfold Float.of_int, binary_normalize.
  destruct n as [|m|m]; cbn [Zdigits2] in Hd.
  - eexists. split; reflexivity.
  - pose proof (binary_round_holds false m Hd) as H.
    destruct (binary_round Float.prec Float.emax false m 0);
      try contradiction; eauto.
  - pose proof (binary_round_holds true m Hd) as H.
    destruct (binary_round Float.prec Float.emax true m 0);
      try contradiction; eauto.
Qed.

Lemma round_holds (x : spec_float) (n : Z) :
  holds x n -> Float.round x = Ok n.
Proof.
  destruct x as [s|s| |s m e]; cbn [holds Float.round]; try contradiction.
  - intros ->. reflexivity.
  - intros [He (p & Hm & ->)]. f_equal.
    destruct (Z.leb_spec 0 e).
    + assert (e = 0) as -> by lia. cbn in Hm. rewrite Z.pow_0_r, Z.mul_1_r, Hm.
      destruct s; lia.
    + unfold Float.div_half_even. rewrite Hm.
      assert (0 < 2 ^ (- e)) by (apply Z.pow_pos_nonneg; lia).
      rewrite Z.div_mul, Z.mod_mul by lia.
      replace (2 * 0 ?= 2 ^ (- e)) with Lt by (symmetry; apply Z.compare_lt_iff; lia).
      destruct s; reflexivity.
Qed.

Lemma mul_holds (x y : spec_float) (n k : Z) :
  holds x n -> holds y k -> Zdigits2 (n * k) <= 53 ->
  holds (Float.mul x y) (n * k).
Proof.
  destruct x as [sx|sx| |sx mx ex], y as [sy|sy| |sy my ey];
    cbn [holds]; try contradiction.
  - intros -> -> _. reflexivity.
  - intros -> _ _. cbn. reflexivity.
  - intros _ -> _. cbn. lia.
  - intros [Hex (p & Hmx & ->)] [Hey (q & Hmy & ->)] Hd.
    assert (Hpq : Zpos (digits2_pos (p * q)) <= 53).
    { destruct sx, sy; exact Hd. }
    unfold Float.mul, SFmul.
    set (d := Zpos (digits2_pos (p * q))) in *.
    set (T := - ex - ey).
    assert (HM : Zpos (mx * my) = Zpos (p * q) * 2 ^ T).
    { rewrite Pos2Z.inj_mul, Hmx, Hmy, Pos2Z.inj_mul. unfold T.
      replace (- ex - ey) with (- ex + - ey) by lia.
      rewrite Z.pow_add_r by lia. ring. }
    assert (Hsign : (if xorb sx sy then Zneg (p * q) else Zpos (p * q)) =
                    (if sx then Zneg p else Zpos p) *
                    (if sy then Zneg q else Zpos q)).
    { destruct sx, sy; reflexivity. }
    rewrite <- Hsign.
    destruct (Z.le_gt_cases (d - 53 + T) 0) as [Hk|Hk].
    + (* the product fits without a shift *)
      destruct (pos_shift (p * q) T ltac:(lia)) as (a & Ha & Hda).
      assert (a = (mx * my)%positive) as -> by lia.
      rewrite round_aux_keeps by (fold d in Hda; lia).
      cbn [holds]. split; [lia|]. exists (p * q)%positive.
      split; [|reflexivity]. rewrite HM. f_equal. unfold T. f_equal. lia.
    + (* the low bits that are shifted out are zero *)
      destruct (pos_shift (p * q) (53 - d) ltac:(lia)) as (a & Ha & Hda).
      fold d in Hda.
      destruct (d - 53 + T) as [|K|K] eqn:EK; try lia.
      assert (HMK : (mx * my)%positive = Pos.iter xO a K).
      { apply Pos2Z.inj. rewrite iter_xO_value, HM, Ha.
        rewrite <- Z.mul_assoc, <- Z.pow_add_r by lia. do 2 f_equal. lia. }
      rewrite HMK, round_aux_shifts by lia.
      cbn [holds]. split; [lia|]. exists (p * q)%positive.
      split; [|reflexivity]. rewrite Ha. do 2 f_equal. lia.
Qed.

(** X16.  Integer values and an integer factor multiply exactly: when the
    value [n], the factor [k] and the product [n * k] each have at most 53
    binary digits, [round(to_number(n) * float(k))] is [n * k]; with the
    factor 1.0 an integer value is copied as it is. *)
Theorem integer_product_is_exact (n k : Z) :
  Zdigits2 n <= 53 -> Zdigits2 k <= 53 -> Zdigits2 (n * k) <= 53 ->
  exists x factor,
    to_number (VInt n) = Ok x /\ Float.of_int k = Ok factor /\
    scaled factor x = Ok (n * k) /\
    (k = 1 -> Float.round x = Ok n).
Proof.
  intros Hn Hk Hnk.
  destruct (of_int_holds n Hn) as (x & Hx & Hxn).
  destruct (of_int_holds k Hk) as (factor & Hf & Hfk).
  exists x, factor. split; [exact Hx|]. split; [exact Hf|]. split.
  - unfold scaled. apply round_holds. apply mul_holds; assumption.
  - intros _. apply round_holds. exact Hxn.
Qed.


(** ** Numbers written as text *)

Lemma uint_text_digits (d : Decimal.uint) :
  Text.all_chars Text.is_digit (NilEmpty.string_of_uint d) = true.
Proof. induction d; cbn; auto. Qed.

Lemma digits_value_acc (d : Decimal.uint) (acc : positive) :
  Regex.digits_value (Zpos acc) (NilEmpty.string_of_uint d) =
  Zpos (Pos.of_uint_acc d acc).
Proof.
  revert acc.
  induction d as [|d IH|d IH|d IH|d IH|d IH|d IH|d IH|d IH|d IH|d IH];
    intros acc;
    cbn [NilEmpty.string_of_uint Regex.digits_value Pos.of_uint_acc];
    [reflexivity|..]; rewrite <- IH; f_equal;
    match goal with
    | |- context [Z.of_nat ?t] =>
        let v := eval vm_compute in (Z.of_nat t) in
        change (Z.of_nat t) with v
    end; lia.
Qed.

Lemma digits_value_uint (d : Decimal.uint) :
  Regex.digits_value 0 (NilEmpty.string_of_uint d) = Z.of_N (Pos.of_uint d).
Proof.
  induction d as [|d IH|d IH|d IH|d IH|d IH|d IH|d IH|d IH|d IH|d IH];
    cbn [NilEmpty.string_of_uint Regex.digits_value Pos.of_uint];
    [reflexivity | exact IH |..];
    cbn [Z.of_N]; rewrite <- digits_value_acc; reflexivity.
Qed.

Lemma nzhead_no_zero (d d' : Decimal.uint) : Decimal.nzhead d <> Decimal.D0 d'.
Proof. induction d; cbn; try discriminate. exact IHd. Qed.

(** The decimal text of a positive integer does not start with a zero. *)
Lemma to_uint_no_zero (p : positive) (d : Decimal.uint) :
  Pos.to_uint p <> Decimal.D0 d.
Proof.
  intros H. pose proof (Unsigned.to_uint_nonzero p) as Hz.
  pose proof (Unsigned.to_of (Pos.to_uint p)) as Hn.
  rewrite Unsigned.of_to in Hn. cbn [N.to_uint] in Hn.
  rewrite H in Hn, Hz. unfold Decimal.unorm in Hn.
  cbn [Decimal.nzhead] in Hn.
  destruct (Decimal.nzhead d) eqn:E; try discriminate Hn.
  - exact (Hz Hn).
  - exact (nzhead_no_zero _ _ E).
Qed.

(** The decimal text of a positive integer. *)
Lemma pos_text (p : positive) :
  exists c r,
    NilZero.string_of_uint (Pos.to_uint p) = String c r /\
    Text.all_chars Text.is_digit (String c r) = true /\
    Regex.digits_value 0 (String c r) = Zpos p /\
    1 <= Z.of_nat (nat_of_ascii c) - 48.
Proof.
  pose proof (Unsigned.to_uint_nonnil p) as Hnil.
  pose proof (to_uint_no_zero p) as Hlead.
  pose proof (uint_text_digits (Pos.to_uint p)) as Hd.
  pose proof (digits_value_uint (Pos.to_uint p)) as Hv.
  rewrite Unsigned.of_to in Hv. cbn [Z.of_N] in Hv.
  assert (Heq : NilZero.string_of_uint (Pos.to_uint p) =
                NilEmpty.string_of_uint (Pos.to_uint p)).
  { destruct (Pos.to_uint p); [contradiction|..]; reflexivity. }
  rewrite Heq.
  destruct (Pos.to_uint p) as [|d|d|d|d|d|d|d|d|d|d];
    [contradiction | contradiction (Hlead d); reflexivity |..];
    cbn [NilEmpty.string_of_uint] in *; eexists _, _;
    (split; [reflexivity|]); (split; [exact Hd|]); (split; [exact Hv|]);
    vm_compute; discriminate.
Qed.

Lemma digit_facts (c : ascii) :
  Text.is_digit c = true ->
  Text.is_c_space c = false /\ Ascii.eqb c "-" = false /\
  Ascii.eqb c "+" = false /\ Ascii.eqb c "," = false /\
  Ascii.eqb c "." = false /\ c <> "226"%char.
Proof.
  destruct c as [[] [] [] [] [] [] [] []]; try discriminate;
    intros _; repeat split; discriminate.
Qed.

(** An ASCII digit is a decimal digit of one byte, and no white space. *)
Lemma digit_classes (c : ascii) (r : string) :
  Text.is_digit c = true ->
  Text.is_ascii c = true /\
  Text.digit_at (String c r) = Some (Text.byte c - 48, O) /\
  Text.space_at (String c r) = None /\
  0 <= Text.byte c - 48 <= 9.
Proof.
  destruct c as [[] [] [] [] [] [] [] []]; try discriminate;
    intros _; repeat split; try reflexivity; vm_compute; discriminate.
Qed.

Lemma int_digits_plain (s : string) (acc : Z) (after_digit : bool) :
  Text.all_chars Text.is_digit s = true ->
  int_digits acc after_digit s =
  match s with
  | EmptyString => if after_digit then Some acc else None
  | _ => Some (Regex.digits_value acc s)
  end.
Proof.
  revert acc after_digit. induction s as [|c s IH]; intros acc b; [reflexivity|].
  cbn [Text.all_chars]. intros [Hc Hs]%andb_true_iff.
  cbn [int_digits Regex.digits_value]. rewrite Hc, (IH _ _ Hs).
  destruct s; reflexivity.
Qed.

Lemma digits_ascii (s : string) :
  Text.all_chars Text.is_digit s = true ->
  Text.all_chars Text.is_ascii s = true.
Proof.
  induction s as [|c s IH]; [reflexivity|].
  cbn [Text.all_chars]. intros [Hc Hs]%andb_true_iff.
  destruct (digit_classes c EmptyString Hc) as [Ha _].
  rewrite Ha, (IH Hs). reflexivity.
Qed.

Lemma count_digits_all (s : string) :
  Text.all_chars Text.is_digit s = true -> count_digits s = String.length s.
Proof.
  induction s as [|c s IH]; [reflexivity|].
  cbn [Text.all_chars]. intros [Hc Hs]%andb_true_iff.
  cbn [count_digits String.length]. rewrite Hc, (IH Hs). reflexivity.
Qed.

(** A run of digits read after [acc] is at least [acc] shifted by the
    length of the run. *)
Lemma digits_value_lower (s : string) (acc : Z) :
  Text.all_chars Text.is_digit s = true -> 0 <= acc ->
  acc * 10 ^ Z.of_nat (String.length s) <= Regex.digits_value acc s.
Proof.
  revert acc. induction s as [|c s IH]; intros acc.
  - intros _ Hacc. cbn. lia.
  - cbn [Text.all_chars]. intros [Hc Hs]%andb_true_iff Hacc.
    destruct (digit_classes c EmptyString Hc) as (_ & _ & _ & Hv).
    unfold Text.byte in Hv.
    cbn [Regex.digits_value String.length].
    rewrite Nat2Z.inj_succ, Z.pow_succ_r by lia.
    etransitivity; [|apply IH; [exact Hs | lia]].
    assert (0 <= 10 ^ Z.of_nat (String.length s)) by (apply Z.pow_nonneg; lia).
    nia.
Qed.

Lemma c_lstrip_no_space (c : ascii) (s : string) :
  Text.is_c_space c = false -> Text.c_lstrip (String c s) = String c s.
Proof. intros H. cbn [Text.c_lstrip]. rewrite H. reflexivity. Qed.

Lemma c_rstrip_digits (s : string) :
  Text.all_chars Text.is_digit s = true -> Text.c_rstrip s = s.
Proof.
  induction s as [|c s IH]; [reflexivity|].
  cbn [Text.all_chars]. intros [Hc Hs]%andb_true_iff.
  cbn [Text.c_rstrip]. rewrite (IH Hs).
  destruct (digit_facts c Hc) as [Hsp _]. rewrite Hsp.
  destruct s; reflexivity.
Qed.

Lemma lstrip_no_space (s : string) :
  Text.space_at s = None -> Text.lstrip s = s.
Proof.
  destruct s as [|c s]; [reflexivity|]. intros H.
  unfold Text.lstrip. cbn [Text.lstrip_from]. rewrite H. reflexivity.
Qed.

Lemma rstrip_digits (s : string) :
  Text.all_chars Text.is_digit s = true -> Text.rstrip s = s.
Proof.
  induction s as [|c s IH]; [reflexivity|].
  cbn [Text.all_chars]. intros [Hc Hs]%andb_true_iff.
  destruct (digit_classes c s Hc) as (_ & _ & Hsp & _).
  cbn [Text.rstrip]. rewrite (lstrip_no_space _ Hsp), (IH Hs). reflexivity.
Qed.

(** A run of digits with a leading digit that is not zero is as long as
    its value allows. *)
Lemma digits_length (c : ascii) (r : string) (k : nat) :
  Text.all_chars Text.is_digit (String c r) = true ->
  1 <= Z.of_nat (nat_of_ascii c) - 48 ->
  Regex.digits_value 0 (String c r) < 10 ^ Z.of_nat k ->
  (String.length (String c r) <= k)%nat.
Proof.
  cbn [Text.all_chars]. intros [Hc Hs]%andb_true_iff Hlead Hv.
  cbn [Regex.digits_value] in Hv.
  pose proof (digits_value_lower r
                (10 * 0 + (Z.of_nat (nat_of_ascii c) - 48)) Hs ltac:(lia))
    as Hl.
  cbn [String.length].
  destruct (Nat.le_gt_cases (S (String.length r)) k) as [Hle|Hgt];
    [exact Hle|exfalso].
  assert (10 ^ Z.of_nat k <= 10 ^ Z.of_nat (String.length r))
    by (apply Z.pow_le_mono_r; lia).
  assert (0 < 10 ^ Z.of_nat (String.length r)) by (apply Z.pow_pos_nonneg; lia).
  nia.
Qed.

(** The text of an integer: an optional minus sign and the digits of its
    absolute value, as many as the value needs. *)
Lemma int_text (n : Z) :
  exists c r,
    Text.all_chars Text.is_digit (String c r) = true /\
    Regex.digits_value 0 (String c r) = Z.abs n /\
    (forall k, (1 <= k)%nat -> Z.abs n < 10 ^ Z.of_nat k ->
               (String.length (String c r) <= k)%nat) /\
    NilZero.string_of_int (Z.to_int n) =
      if n <? 0 then String "-" (String c r) else String c r.
Proof.
  destruct n as [|p|p].
  - exists "0"%char, EmptyString. repeat split. intros k Hk _. exact Hk.
  - destruct (pos_text p) as (c & r & Ht & Hd & Hv & Hlead).
    exists c, r. cbn [Z.to_int NilZero.string_of_int Z.ltb Z.compare Z.abs].
    repeat split; auto.
    intros k _ Hn. apply digits_length; [exact Hd | exact Hlead|].
    rewrite Hv. exact Hn.
  - destruct (pos_text p) as (c & r & Ht & Hd & Hv & Hlead).
    exists c, r. cbn [Z.to_int NilZero.string_of_int Z.ltb Z.compare Z.abs].
    rewrite Ht. repeat split; auto.
    intros k _ Hn. apply digits_length; [exact Hd | exact Hlead|].
    rewrite Hv. exact Hn.
Qed.

Lemma strip_int_text (neg : bool) (c : ascii) (r : string) :
  Text.all_chars Text.is_digit (String c r) = true ->
  Text.strip (if neg then String "-" (String c r) else String c r) =
  if neg then String "-" (String c r) else String c r.
Proof.
  intros Hd. pose proof (rstrip_digits _ Hd) as Hr.
  pose proof Hd as Hc. cbn [Text.all_chars] in Hc.
  apply andb_true_iff in Hc as [Hc _].
  destruct (digit_classes c r Hc) as (_ & _ & Hsp & _).
  unfold Text.strip. destruct neg.
  - rewrite lstrip_no_space by reflexivity.
    change (Text.rstrip (String "-" (String c r)))
      with (match Text.lstrip (String "-" (String c r)) with
            | EmptyString => EmptyString
            | _ => String "-" (Text.rstrip (String c r))
            end).
    rewrite lstrip_no_space by reflexivity. rewrite Hr. reflexivity.
  - rewrite lstrip_no_space by exact Hsp. exact Hr.
Qed.

Lemma c_strip_int_text (neg : bool) (c : ascii) (r : string) :
  Text.all_chars Text.is_digit (String c r) = true ->
  Text.c_strip (if neg then String "-" (String c r) else String c r) =
  if neg then String "-" (String c r) else String c r.
Proof.
  intros Hd. pose proof (c_rstrip_digits _ Hd) as Hr.
  pose proof Hd as Hc. cbn [Text.all_chars] in Hc.
  apply andb_true_iff in Hc as [Hc _].
  destruct (digit_facts c Hc) as [Hsp _].
  unfold Text.c_strip. destruct neg.
  - rewrite c_lstrip_no_space by reflexivity.
    change (Text.c_rstrip (String "-" (String c r)))
      with (match Text.c_rstrip (String c r) with
            | EmptyString =>
                if Text.is_c_space "-" then EmptyString
                else String "-" EmptyString
            | r' => String "-" r'
            end).
    rewrite Hr. reflexivity.
  - rewrite c_lstrip_no_space by exact Hsp. exact Hr.
Qed.

Lemma to_ascii_int_text (neg : bool) (s : string) :
  Text.all_chars Text.is_digit s = true ->
  Text.to_ascii (if neg then String "-" s else s) =
  if neg then String "-" s else s.
Proof.
  intros Hd. pose proof (digits_ascii _ Hd) as Ha. unfold Text.to_ascii.
  destruct neg; cbn [Text.all_chars]; rewrite Ha; reflexivity.
Qed.

(** The text of an integer that is accepted back: it is ASCII, free of
    white space, and short enough below [10 ^ 4300]. *)
Lemma int_of_str_text (n : Z) :
  Z.abs n < 10 ^ 4300 ->
  int_of_str (NilZero.string_of_int (Z.to_int n)) = Ok n.
Proof.
  intros Hn. destruct (int_text n) as (c & r & Hd & Hv & Hlen & ->).
  unfold int_of_str.
  rewrite (to_ascii_int_text (n <? 0) _ Hd), (c_strip_int_text (n <? 0) c r Hd).
  pose proof Hd as Hc. cbn [Text.all_chars] in Hc.
  apply andb_true_iff in Hc as [Hc _].
  destruct (digit_facts c Hc) as (_ & Hminus & Hplus & _).
  assert (Hcount : Nat.leb (count_digits (String c r)) max_str_digits = true).
  { apply Nat.leb_le. rewrite (count_digits_all _ Hd).
    apply (Hlen 4300%nat); [unfold max_str_digits; lia|].
    change (Z.of_nat 4300) with 4300. exact Hn. }
  destruct (Z.ltb_spec n 0) as [Hneg|Hneg].
  - cbn [split_sign]. rewrite Ascii.eqb_refl.
    rewrite (int_digits_plain _ 0 false Hd), Hcount, Hv. f_equal. lia.
  - cbn [split_sign]. rewrite Hminus, Hplus.
    rewrite (int_digits_plain _ 0 false Hd), Hcount, Hv. f_equal. lia.
Qed.

Lemma remove_rupee_cons (c : ascii) (s : string) :
  c <> "226"%char ->
  Text.remove_all "₹" (String c s) = String c (Text.remove_all "₹" s).
Proof.
  intros Hne. unfold Text.remove_all.
  change (Text.remove_from "₹" 0 (String c s))
    with (if String.prefix "₹" (String c s)
          then Text.remove_from "₹" (Nat.pred (String.length "₹")) s
          else String c (Text.remove_from "₹" 0 s)).
  replace (String.prefix "₹" (String c s)) with false; [reflexivity|].
  cbn [String.prefix].
  destruct (ascii_dec "226" c) as [<-|_]; [contradiction Hne|]; reflexivity.
Qed.

Lemma remove_rupee_digits (s : string) :
  Text.all_chars Text.is_digit s = true -> Text.remove_all "₹" s = s.
Proof.
  induction s as [|c s IH]; [reflexivity|].
  cbn [Text.all_chars]. intros [Hc Hs]%andb_true_iff.
  destruct (digit_facts c Hc) as (_ & _ & _ & _ & _ & Hne).
  rewrite remove_rupee_cons, (IH Hs) by exact Hne. reflexivity.
Qed.

Lemma remove_comma_digits (s : string) :
  Text.all_chars Text.is_digit s = true -> Text.remove_all "," s = s.
Proof.
  induction s as [|c s IH]; [reflexivity|].
  cbn [Text.all_chars]. intros [Hc Hs]%andb_true_iff.
  destruct (digit_facts c Hc) as (_ & _ & _ & Hcomma & _).
  rewrite remove_comma_cons, Hcomma, (IH Hs). reflexivity.
Qed.

Lemma span_digits_all (s : string) :
  Text.all_chars Text.is_digit s = true ->
  Regex.span_digits s = (s, EmptyString).
Proof.
  induction s as [|c s IH]; [reflexivity|].
  cbn [Text.all_chars]. intros [Hc Hs]%andb_true_iff.
  destruct (digit_classes c s Hc) as (_ & Hd & _).
  unfold Regex.span_digits. cbn [Regex.span_from]. rewrite Hd.
  fold (Regex.span_digits s). rewrite (IH Hs). reflexivity.
Qed.

Lemma append_nil_r (a : string) : a +:+ EmptyString = a.
Proof.
  induction a as [|x a IH]; [reflexivity|].
  rewrite append_cons. congruence.
Qed.

(** What [to_number] does with the text of an integer. *)
Lemma to_number_int_text (n : Z) :
  to_number (VStr (NilZero.string_of_int (Z.to_int n))) =
  Ok (Float.of_decimal (n <? 0) (Z.abs n) 0).
Proof.
  destruct (int_text n) as (c & r & Hd & Hv & _ & ->).
  pose proof Hd as Hc. cbn [Text.all_chars] in Hc.
  apply andb_true_iff in Hc as [Hc _].
  destruct (digit_facts c Hc) as (_ & Hminus & _).
  cbn [to_number]. unfold number_in.
  assert (Hprep : Text.strip
                    (Text.remove_all "₹"
                       (Text.remove_all ","
                          (if n <? 0 then String "-" (String c r)
                           else String c r))) =
                  if n <? 0 then String "-" (String c r) else String c r).
  { destruct (n <? 0).
    - rewrite remove_comma_cons. change (Ascii.eqb "-" ",") with false.
      cbv iota. rewrite (remove_comma_digits _ Hd).
      rewrite remove_rupee_cons by discriminate.
      rewrite (remove_rupee_digits _ Hd).
      exact (strip_int_text true c r Hd).
    - rewrite (remove_comma_digits _ Hd), (remove_rupee_digits _ Hd).
      exact (strip_int_text false c r Hd). }
  rewrite Hprep.
  assert (Hu : Regex.match_unsigned (String c r) = Some (String c r)).
  { unfold Regex.match_unsigned. rewrite (span_digits_all _ Hd).
    cbn [Regex.match_fraction]. rewrite append_nil_r. reflexivity. }
  destruct (n <? 0).
  - cbn [Regex.re_search_number Regex.match_number].
    rewrite Ascii.eqb_refl, Hu. f_equal.
    unfold Regex.float_of_match.
    rewrite (to_ascii_int_text true _ Hd). cbn [Regex.split_minus].
    rewrite Ascii.eqb_refl, (span_digits_all _ Hd).
    cbn [Regex.fraction_digits String.length]. rewrite append_nil_r, Hv.
    reflexivity.
  - cbn [Regex.re_search_number Regex.match_number].
    rewrite Hminus, Hu. f_equal.
    unfold Regex.float_of_match.
    rewrite (to_ascii_int_text false _ Hd). cbn [Regex.split_minus].
    rewrite Hminus, (span_digits_all _ Hd).
    cbn [Regex.fraction_digits String.length]. rewrite append_nil_r, Hv.
    reflexivity.
Qed.

Lemma binary_round_canonical (s : bool) (p a : positive) :
  Zpos (digits2_pos p) <= 53 ->
  Zpos a = Zpos p * 2 ^ (53 - Zpos (digits2_pos p)) ->
  binary_round Float.prec Float.emax s p 0 =
  S754_finite s a (Zpos (digits2_pos p) - 53).
Proof.
  intros Hd Ha. unfold binary_round, shl_align, fexp, emin.
  replace (Z.max (Z.pos (digits2_pos p) + 0 - Float.prec)
             (3 - Float.emax - Float.prec) - 0)
    with (Z.pos (digits2_pos p) - 53) by (unfold Float.prec, Float.emax; lia).
  replace (Z.max (Z.pos (digits2_pos p) + 0 - Float.prec)
             (3 - Float.emax - Float.prec))
    with (Z.pos (digits2_pos p) - 53) by (unfold Float.prec, Float.emax; lia).
  destruct (Z.pos (digits2_pos p) - 53) as [|k|k] eqn:E; [| lia |].
  - rewrite round_aux_keeps by lia.
    replace (53 - Z.pos (digits2_pos p)) with 0 in Ha by lia.
    f_equal. lia.
  - rewrite round_aux_keeps by (rewrite ?digits2_iter_xO; lia).
    f_equal. apply Pos2Z.inj. rewrite iter_xO_value, Ha. f_equal. f_equal. lia.
Qed.

Lemma of_decimal_canonical (s : bool) (p a : positive) :
  Zpos (digits2_pos p) <= 53 ->
  Zpos a = Zpos p * 2 ^ (53 - Zpos (digits2_pos p)) ->
  Float.of_decimal s (Zpos p) 0 =
  S754_finite s a (Zpos (digits2_pos p) - 53).
Proof.
  intros Hd Ha. unfold Float.of_decimal, SFdiv_core_binary.
  change (10 ^ 0) with 1. cbn [Zdigits2 digits2_pos].
  unfold fexp, emin.
  replace (Z.min
             (Z.max (Z.pos (digits2_pos p) + 0 - (1 + 0) - Float.prec)
                (3 - Float.emax - Float.prec)) (0 - 0))
    with (Z.pos (digits2_pos p) - 54) by (unfold Float.prec, Float.emax; lia).
  destruct (0 - 0 - (Z.pos (digits2_pos p) - 54)) as [|k|k] eqn:Ek; try lia.
  rewrite Z.shiftl_mul_pow2 by lia.
  assert (Hdiv : Z.div_eucl (Z.pos p * 2 ^ Z.pos k) 1 =
                 (Z.pos p * 2 ^ Z.pos k, 0)).
  { pose proof (Z.div_1_r (Z.pos p * 2 ^ Z.pos k)) as H1.
    pose proof (Z.mod_1_r (Z.pos p * 2 ^ Z.pos k)) as H2.
    unfold Z.div, Z.modulo in H1, H2.
    destruct (Z.div_eucl (Z.pos p * 2 ^ Z.pos k) 1). cbn in *. congruence. }
  rewrite Hdiv. cbn [new_location Z.even new_location_odd Z.eqb].
  replace (Z.pos p * 2 ^ Z.pos k) with (Zpos (Pos.iter xO a 1)).
  - rewrite round_aux_shifts.
    + f_equal. lia.
    + destruct (pos_shift p (53 - Zpos (digits2_pos p)) ltac:(lia))
        as (a' & Ha' & Hda').
      assert (a' = a) as -> by lia. lia.
    + lia.
  - rewrite iter_xO_value, Ha, <- Z.mul_assoc, <- Z.pow_add_r by lia.
    do 2 f_equal. lia.
Qed.

Lemma pos_canonical (p : positive) :
  Zpos (digits2_pos p) <= 53 ->
  exists a, Zpos a = Zpos p * 2 ^ (53 - Zpos (digits2_pos p)).
Proof.
  intros Hd.
  destruct (pos_shift p (53 - Zpos (digits2_pos p)) ltac:(lia)) as (a & Ha & _).
  eauto.
Qed.

Lemma of_decimal_of_int (n : Z) :
  Zdigits2 n <= 53 ->
  Float.of_int n = Ok (Float.of_decimal (n <? 0) (Z.abs n) 0).
Proof.
  intros Hd. unfold Float.of_int, binary_normalize.
  destruct n as [|p|p]; cbn [Zdigits2 Z.abs] in *.
  - reflexivity.
  - change (Z.pos p <? 0) with false. change (Z.abs (Z.pos p)) with (Z.pos p).
    destruct (pos_canonical p Hd) as [a Ha].
    rewrite (binary_round_canonical false p a Hd Ha),
      (of_decimal_canonical false p a Hd Ha). reflexivity.
  - change (Z.neg p <? 0) with true. change (Z.abs (Z.neg p)) with (Z.pos p).
    destruct (pos_canonical p Hd) as [a Ha].
    rewrite (binary_round_canonical true p a Hd Ha),
      (of_decimal_canonical true p a Hd Ha). reflexivity.
Qed.

(** X17.  The decimal text of an integer of at most 4300 digits converts
    back to that integer: [int(str(n))] is [n].  A target row given as the
    text of a number therefore selects the same row as the number
    itself. *)
Theorem py_int_of_int_text (n : Z) :
  Z.abs n < 10 ^ 4300 ->
  py_int (VStr (py_str (VInt n))) = Ok n.
Proof. apply int_of_str_text. Qed.

(** X18.  A value cell that holds the decimal text of an integer of at
    most 53 binary digits coerces to the same float as a cell that holds
    the integer itself. *)
Theorem to_number_of_int_text (n : Z) :
  Zdigits2 n <= 53 ->
  to_number (VStr (py_str (VInt n))) = to_number (VInt n).
Proof.
  intros Hd. cbn [py_str]. rewrite to_number_int_text.
  cbn [to_number]. rewrite of_decimal_of_int by exact Hd. reflexivity.
Qed.


(** ** The list of unresolved keys *)

(** X19.  When the loop runs through, [missing_keys] has grown by the
    original key cells of exactly the rows that have both columns present
    and no match, in the order of the rows. *)
Theorem missing_keys_in_row_order factor source_data mapping_ws rows st st' :
  mapping_loop factor source_data mapping_ws rows st = Done st' ->
  missing_keys st' =
  missing_keys st ++
  List.map (cell_value mapping_ws col_A)
    (List.filter (unmatched_row source_data mapping_ws) rows).
Proof.
  intros Hloop.
  pose proof (mapping_loop_done _ _ _ _ _ _ Hloop) as Hrows.
  destruct (mapping_loop_writable factor _ _ _ st Hrows)
    as (st2 & Hloop2 & _ & _ & Hm).
  rewrite Hloop in Hloop2. injection Hloop2 as <-. exact Hm.
Qed.

(** ** Target rows and keys that are numbers *)

Lemma trunc_holds (x : spec_float) (n : Z) :
  holds x n -> Float.trunc x = Ok n.
Proof.
  destruct x as [s|s| |s m e]; cbn [holds Float.trunc]; try contradiction.
  - intros ->. reflexivity.
  - intros [He (p & Hm & ->)]. f_equal.
    destruct (Z.leb_spec 0 e).
    + assert (e = 0) as -> by lia. cbn in Hm. rewrite Z.pow_0_r, Z.mul_1_r, Hm.
      destruct s; lia.
    + rewrite Hm.
      assert (0 < 2 ^ (- e)) by (apply Z.pow_pos_nonneg; lia).
      rewrite Z.div_mul by lia. destruct s; reflexivity.
Qed.

(** X20.  A target row stored as a float with an integral value selects
    the row of that value: for an integer [n] of at most 53 binary digits,
    [int(float(n))] is [n]. *)
Theorem py_int_of_integral_float (n : Z) :
  Zdigits2 n <= 53 ->
  exists x, Float.of_int n = Ok x /\ py_int (VFloat x) = Ok n.
Proof.
  intros Hd. destruct (of_int_holds n Hd) as (x & Hx & Hxn).
  exists x. split; [exact Hx|]. cbn [py_int]. apply trunc_holds. exact Hxn.
Qed.

Lemma digit_not_letter (c : ascii) :
  Text.is_digit c = true ->
  Text.is_ascii c = true /\ Text.lower_ascii c = c /\ Text.is_az c = false.
Proof.
  destruct c as [[] [] [] [] [] [] [] []]; try discriminate;
    intros _; repeat split.
Qed.

Lemma normalize_digits (s : string) :
  Text.all_chars Text.is_digit s = true ->
  Text.re_sub_non_az (Text.lower s) = EmptyString.
Proof.
  induction s as [|c s IH]; [reflexivity|].
  cbn [Text.all_chars]. intros [Hc Hs]%andb_true_iff.
  destruct (digit_not_letter c Hc) as (Ha & Hl & Hz).
  rewrite lower_cons_ascii, Hl by exact Ha.
  cbn [Text.re_sub_non_az]. rewrite Hz. exact (IH Hs).
Qed.

(** X21.  Every integer key normalises to the empty text: its text has
    digits and at most a minus sign, and no letter. *)
Theorem normalize_integer_key (n : Z) :
  normalize (VInt n) = EmptyString.
Proof.
  unfold normalize. cbn [py_str].
  destruct (int_text n) as (c & r & Hd & _ & _ & ->).
  destruct (n <? 0); [|exact (normalize_digits _ Hd)].
  rewrite lower_cons_ascii by reflexivity.
  cbn [Text.re_sub_non_az]. exact (normalize_digits _ Hd).
Qed.

(** ** Running the writes again *)

Lemma write_all_lookup (ws ws' : worksheet) (writes : list (Z * Z * value)) :
  write_all ws writes = Ok ws' ->
  merged_cells ws' = merged_cells ws /\
  forall k,
    cells ws' !! k =
    match last_write (merged_cells ws) writes k with
    | Some v => Some v
    | None => cells ws !! k
    end.
Proof.
  revert ws. induction writes as [|[[col row] v] rest IH]; intros ws.
  - cbn. intros [= <-]. auto.
  - cbn [write_all last_write]. unfold_bind.
    destruct (write_to_cell ws col row v) as [ws1|] eqn:W; [|discriminate].
    intros Hrest. destruct (IH _ Hrest) as [Hm Hc].
    assert (Hmerged : merged_cells ws1 = merged_cells ws)
      by apply (write_to_cell_frame _ _ _ _ _ W).
    rewrite Hmerged in *. split; [exact Hm|]. intros k. rewrite Hc.
    destruct (last_write (merged_cells ws) rest k); [reflexivity|].
    unfold write_to_cell in W. destruct (valid_row row); [|discriminate].
    rewrite write_scan_landing in W. injection W as <-. cbn [cells set_cell].
    destruct (landing_cell (merged_cells ws) col row) as [lr lc]. cbn [fst snd].
    destruct (decide ((lr, lc) = k)) as [<-|Hne].
    + apply lookup_insert_eq.
    + apply lookup_insert_ne. exact Hne.
Qed.

Lemma write_all_rows (ws : worksheet) (writes : list (Z * Z * value)) :
  is_ok (write_all ws writes) =
  forallb (fun w => valid_row w.1.2) writes.
Proof.
  revert ws. induction writes as [|[[col row] v] rest IH]; intros ws;
    [reflexivity|].
  cbn [write_all forallb fst snd]. unfold_bind. unfold write_to_cell.
  destruct (valid_row row); [apply IH | reflexivity].
Qed.

Lemma write_all_again (ws ws' : worksheet) (writes : list (Z * Z * value)) :
  write_all ws writes = Ok ws' -> write_all ws' writes = Ok ws'.
Proof.
  intros H. destruct (write_all_lookup _ _ _ H) as [Hm Hc].
  pose proof (write_all_rows ws writes) as Hr1.
  pose proof (write_all_rows ws' writes) as Hr2.
  rewrite H in Hr1. cbn in Hr1. rewrite <- Hr1 in Hr2.
  destruct (write_all ws' writes) as [ws2|] eqn:H2; [|discriminate].
  destruct (write_all_lookup _ _ _ H2) as [Hm2 Hc2]. f_equal.
  destruct ws' as [c1 m1], ws2 as [c2 m2]. cbn [cells merged_cells] in *.
  f_equal; [|congruence].
  apply map_eq. intros k. rewrite Hc2, Hc, Hm.
  destruct (last_write (merged_cells ws) writes k); reflexivity.
Qed.

(** X22.  Performing the same list of writes a second time changes
    nothing: every write lands on the same cell as before and stores the
    value that the last write to that cell left there. *)
Theorem write_all_twice (ws ws' : worksheet) (writes : list (Z * Z * value)) :
  write_all ws writes = Ok ws' ->
  (ws1 ← write_all ws writes; write_all ws1 writes) = Ok ws'.
Proof.
  intros H. rewrite H. cbn. exact (write_all_again _ _ _ H).
Qed.

(** X23.  A run that ended without an exception can be repeated on the
    workbook it produced: the second run ends without an exception, gives
    the same counts and leaves the workbook exactly as the first run left
    it. *)
Theorem run_etl_again
    (source_wb mapping_wb target_wb : gmap string worksheet)
    (source_sheet target_sheet : string) (factor : spec_float) :
  let r1 := run_etl source_wb mapping_wb target_wb source_sheet target_sheet
              factor in
  let r2 := run_etl source_wb mapping_wb (out_target r1) source_sheet
              target_sheet factor in
  out_error r1 = None ->
  out_error r2 = None /\
  out_target r2 = out_target r1 /\
  out_filled r2 = out_filled r1 /\
  out_missing r2 = out_missing r1.
Proof.
  cbv zeta. intros He.
  destruct (source_wb !! source_sheet) as [source_ws|] eqn:Hs;
    [|unfold run_etl, get_sheet in He; rewrite Hs in He; discriminate He].
  destruct (mapping_wb !! "Sheet1") as [mapping_ws|] eqn:Hm;
    [|unfold run_etl, get_sheet in He; rewrite Hs, Hm in He;
      discriminate He].
  destruct (target_wb !! target_sheet) as [target|] eqn:Ht;
    [|unfold run_etl, get_sheet in He; rewrite Hs, Hm, Ht in He;
      discriminate He].
  destruct (load_source source_ws) as [source_data|] eqn:Hl;
    [|unfold run_etl, get_sheet in He; rewrite Hs, Hm, Ht in He;
      cbn in He; rewrite Hl in He; discriminate He].
  rewrite (run_etl_loaded _ _ _ _ _ _ _ _ _ _ Hs Hm Ht Hl) in *.
  cbv zeta in *.
  destruct (mapping_loop factor source_data mapping_ws (data_rows mapping_ws)
              {| target_ws := target; filled := 0; missing_keys := [] |})
    as [st1|e st1] eqn:Hloop; [|discriminate He].
  cbn [final_state out_error out_target out_filled out_missing] in *.
  pose proof (mapping_loop_done _ _ _ _ _ _ Hloop) as Hrows.
  destruct (mapping_loop_writable factor _ _ _
              {| target_ws := target; filled := 0; missing_keys := [] |} Hrows)
    as (st1' & Hloop1 & Hw1 & Hf1 & Hm1).
  rewrite Hloop in Hloop1. injection Hloop1 as <-.
  cbn [target_ws filled missing_keys] in *.
  destruct (mapping_loop_writable factor _ _ _
              {| target_ws := target_ws st1; filled := 0; missing_keys := [] |}
              Hrows)
    as (st2 & Hloop2 & Hw2 & Hf2 & Hm2).
  cbn [target_ws filled missing_keys] in *.
  rewrite (write_all_again _ _ _ Hw1) in Hw2. injection Hw2 as Hw2.
  assert (Hlook : <[target_sheet := target_ws st1]> target_wb !! target_sheet
                  = Some (target_ws st1)) by apply lookup_insert_eq.
  rewrite (run_etl_loaded _ _ _ _ _ _ _ _ _ _ Hs Hm Hlook Hl). cbv zeta.
  rewrite Hloop2. cbn [final_state out_error out_target out_filled
    out_missing].
  split; [reflexivity|]. split; [|split; congruence].
  rewrite <- Hw2. apply insert_insert_eq.
Qed.

(** ** The cells after a row and after a run *)

Lemma classify_matched source_data mapping_ws row m :
  classify source_data mapping_ws row = Matched m ->
  both_present mapping_ws row = true /\
  find_match (normalize (cell_value mapping_ws col_A row)) source_data =
    Some m.
Proof.
  unfold classify. destruct (both_present mapping_ws row); [|discriminate].
  destruct (find_match _ source_data); intros [= <-]. auto.
Qed.

(** X2.  A mapping row is carried out as a whole or not at all.  The step
    raises with the state exactly as it was before the row; or it ends
    without a write and with the count as it was; or the row is matched,
    the count grows by one and both values are in the sheet: the previous
    value in the cell on which [J{target_row}] lands, the current value in
    the cell on which [G{target_row}] lands (unless both land on the same
    anchor, which then holds the previous value), and every other cell as
    before.  No row leaves one of its two cells written without the
    other. *)
Theorem process_row_all_or_nothing factor source_data mapping_ws st row :
  (exists e, process_row factor source_data mapping_ws st row = Aborted e st) \/
  (exists st',
     process_row factor source_data mapping_ws st row = Done st' /\
     target_ws st' = target_ws st /\ filled st' = filled st) \/
  (exists m tr c p ws',
     classify source_data mapping_ws row = Matched m /\
     py_int (cell_value mapping_ws col_B row) = Ok tr /\
     scaled factor (current m) = Ok c /\
     scaled factor (previous m) = Ok p /\
     process_row factor source_data mapping_ws st row =
       Done {| target_ws := ws'; filled := filled st + 1;
               missing_keys := missing_keys st |} /\
     let g := landing_cell (merged_cells (target_ws st)) col_G tr in
     let j := landing_cell (merged_cells (target_ws st)) col_J tr in
     merged_cells ws' = merged_cells (target_ws st) /\
     cells ws' !! j = Some (VInt p) /\
     (g <> j -> cells ws' !! g = Some (VInt c)) /\
     (forall k, k <> g -> k <> j ->
                cells ws' !! k = cells (target_ws st) !! k)).
Proof.
  destruct (row_writable factor source_data mapping_ws row) eqn:H.
  2: { left. apply process_row_not_writable. exact H. }
  right. destruct (classify source_data mapping_ws row) as [|key|m] eqn:Hc.
  - left. destruct (process_row_writable factor _ _ st _ H)
      as (st' & Hs & Hw & Hf & _).
    exists st'. unfold row_writes, matched_row in *. rewrite Hc in *.
    cbn in Hw, Hf. injection Hw as Hw. split; [exact Hs|].
    split; [congruence | lia].
  - left. destruct (process_row_writable factor _ _ st _ H)
      as (st' & Hs & Hw & Hf & _).
    exists st'. unfold row_writes, matched_row in *. rewrite Hc in *.
    cbn in Hw, Hf. injection Hw as Hw. split; [exact Hs|].
    split; [congruence | lia].
  - right. unfold row_writable in H. rewrite Hc in H.
    destruct (py_int (cell_value mapping_ws col_B row)) as [tr|] eqn:Hr;
      [|discriminate].
    destruct (scaled factor (current m)) as [c|] eqn:Hcur;
      [|rewrite andb_false_r in H; discriminate].
    destruct (scaled factor (previous m)) as [p|] eqn:Hprev;
      [|rewrite andb_false_r in H; discriminate].
    rewrite !andb_true_r in H.
    destruct (classify_matched _ _ _ _ Hc) as [Hb Hm].
    destruct (process_row_matched factor _ _ st _ _ _ _ _ Hb Hm Hr H Hcur Hprev)
      as (ws' & Hw & Hstep).
    exists m, tr, c, p, ws'. repeat split; try assumption.
    all: destruct (write_all_lookup _ _ _ Hw) as [Hmerged Hcells].
    + exact Hmerged.
    + rewrite Hcells. cbn [last_write].
      destruct (decide (_ = _)) as [_|Hne]; [reflexivity|].
      contradiction Hne; reflexivity.
    + intros Hgj. rewrite Hcells. cbn [last_write].
      destruct (decide (landing_cell (merged_cells (target_ws st)) col_J tr =
                        landing_cell (merged_cells (target_ws st)) col_G tr))
        as [Heq|_]; [contradiction Hgj; symmetry; exact Heq|].
      destruct (decide (_ = _)) as [_|Hne]; [reflexivity|].
      contradiction Hne; reflexivity.
    + intros k Hg Hj. rewrite Hcells. cbn [last_write].
      destruct (decide (landing_cell (merged_cells (target_ws st)) col_J tr =
                        k)) as [Heq|_]; [contradiction Hj; symmetry; exact Heq|].
      destruct (decide (landing_cell (merged_cells (target_ws st)) col_G tr =
                        k)) as [Heq|_]; [contradiction Hg; symmetry; exact Heq|].
      reflexivity.
Qed.

(** X24.  Take a run whose sheets exist and whose source rows load, and in
    which every matched mapping row is in order (its column-B value
    converts to a row of the sheet and its two scaled values round).  Then
    the run ends without an exception.  Every matched row has its two
    writes, [round(match.current * factor)] to [G{target_row}] and
    [round(match.previous * factor)] to [J{target_row}]; a cell of the
    target sheet holds the value of the last of these writes that lands on
    it, or what it held before when none does, and the merged ranges are as
    before.  [filled] is the number of matched rows and [missing_keys]
    lists the original keys of the rows with both columns present and no
    match, in row order. *)
Theorem etl_fills_matched_rows
    (source_wb mapping_wb target_wb : gmap string worksheet)
    (source_sheet target_sheet : string) (factor : spec_float)
    (source_ws mapping_ws target : worksheet)
    (source_data : list source_record) :
  source_wb !! source_sheet = Some source_ws ->
  mapping_wb !! "Sheet1" = Some mapping_ws ->
  target_wb !! target_sheet = Some target ->
  load_source source_ws = Ok source_data ->
  forallb (row_writable factor source_data mapping_ws)
    (data_rows mapping_ws) = true ->
  let rows := data_rows mapping_ws in
  let writes := flat_map (row_writes factor source_data mapping_ws) rows in
  let r := run_etl source_wb mapping_wb target_wb source_sheet target_sheet
             factor in
  out_error r = None /\
  (exists ws',
     out_target r = <[target_sheet := ws']> target_wb /\
     merged_cells ws' = merged_cells target /\
     forall k,
       cells ws' !! k =
       match last_write (merged_cells target) writes k with
       | Some v => Some v
       | None => cells target !! k
       end) /\
  (forall row m,
     In row rows -> classify source_data mapping_ws row = Matched m ->
     exists tr c p,
       py_int (cell_value mapping_ws col_B row) = Ok tr /\
       Float.round (Float.mul (current m) factor) = Ok c /\
       Float.round (Float.mul (previous m) factor) = Ok p /\
       row_writes factor source_data mapping_ws row =
         [(col_G, tr, VInt c); (col_J, tr, VInt p)]) /\
  out_filled r =
    Z.of_nat (length (List.filter (matched_row source_data mapping_ws) rows)) /\
  out_missing r =
    List.map (cell_value mapping_ws col_A)
      (List.filter (unmatched_row source_data mapping_ws) rows).
Proof.
  intros Hs Hm Ht Hl Hrows rows writes r. subst r writes.
  rewrite (run_etl_loaded _ _ _ _ _ _ _ _ _ _ Hs Hm Ht Hl). cbv zeta.
  destruct (mapping_loop_writable factor source_data mapping_ws rows
              {| target_ws := target; filled := 0; missing_keys := [] |} Hrows)
    as (st' & Hloop & Hw & Hf & Hmiss).
  fold rows. rewrite Hloop. cbn [final_state out_error out_target out_filled
    out_missing target_ws filled missing_keys] in *.
  split; [reflexivity|]. split; [|split; [|split]].
  - exists (target_ws st'). split; [reflexivity|].
    exact (write_all_lookup _ _ _ Hw).
  - intros row m Hin Hc.
    rewrite forallb_forall in Hrows. specialize (Hrows row Hin).
    unfold row_writable, row_writes, scaled in *. rewrite Hc in *.
    destruct (py_int _) as [tr|]; [|discriminate].
    destruct (Float.round (Float.mul (current m) factor)) as [c|];
      [|rewrite andb_false_r in Hrows; discriminate].
    destruct (Float.round (Float.mul (previous m) factor)) as [p|];
      [|rewrite andb_false_r in Hrows; discriminate].
    exists tr, c, p. auto.
  - rewrite Hf. lia.
  - rewrite Hmiss. reflexivity.
Qed.

End Model.

(** * Worked instances *)

(** A write to G6, inside the merged range G5:H6, lands on G5. *)
Lemma write_into_merged_range :
  write_to_cell merged_target col_G 6 (VInt 9) =
  Ok (set_cell merged_target 5 7 (VInt 9)).
Proof.
  destruct (write_lands_on_anchor merged_target col_G 6 (VInt 9)
              eq_refl eq_refl) as [H _].
  exact H.
Defined.

(** The key "Globex" matches no source record and is recorded as it is. *)
Lemma globex_is_recorded :
  process_row repr_sample two acme_records acme_mapping
    (start_state merged_target) 3 =
  Done {| target_ws := merged_target; filled := 0;
          missing_keys := [VStr "Globex"] |}.
Proof.
  assert (Hb : both_present acme_mapping 3 = true)
    by (vm_compute; reflexivity).
  assert (Hm : find_match
                 (normalize repr_sample (cell_value acme_mapping col_A 3))
                 acme_records = None)
    by (vm_compute; reflexivity).
  destruct (unresolved_key_recorded repr_sample two acme_records acme_mapping
              (start_state merged_target) 3 [] Hb Hm) as [H _].
  exact H.
Defined.

(** A source row whose key cell holds the number 0 is not empty and is
    still left out of the index. *)
Lemma zero_key_row_dropped :
  In 2 (data_rows zero_key_source) /\
  is_empty (cell_value zero_key_source col_B 2) = false /\
  load_source repr_sample zero_key_source = Ok [].
Proof. vm_compute. auto. Qed.

(** Both rows of [twin_source] are loaded, under the same normalised key,
    and the key finds the record of the first. *)
Lemma twin_rows_both_loaded :
  load_source repr_sample twin_source =
    Ok [record_of repr_sample twin_source 2;
        record_of repr_sample twin_source 3] /\
  norm_key (record_of repr_sample twin_source 2) =
    norm_key (record_of repr_sample twin_source 3) /\
  find_match "acmecorp"
    [record_of repr_sample twin_source 2;
     record_of repr_sample twin_source 3] =
    Some (record_of repr_sample twin_source 2).
Proof.
  assert (Hrows : forallb (row_coercible twin_source)
                    (data_rows twin_source) = true)
    by (vm_compute; reflexivity).
  destruct (load_source_keeps_truthy_rows repr_sample twin_source Hrows)
    as (Hl & _ & _ & Hfind).
  split; [rewrite Hl; vm_compute; reflexivity|].
  split; vm_compute; reflexivity.
Defined.

(** * Worked instances of the further properties *)

(** With the bad row third, the first row is filled before the run ends. *)
Lemma late_bad_row_keeps_first_write :
  exists e st1,
    mapping_loop repr_sample two acme_records late_bad_mapping [2; 3; 4]
      (start_state merged_target) = Aborted e st1 /\
    filled st1 = 1.
Proof.
  assert (Hb : forallb (row_writable repr_sample two acme_records
                          late_bad_mapping) [2] = true)
    by (vm_compute; reflexivity).
  assert (Hr : row_writable repr_sample two acme_records late_bad_mapping 3
               = false) by (vm_compute; reflexivity).
  destruct (mapping_loop_stops_at_first_bad_row repr_sample two acme_records
              late_bad_mapping [2] 3 [4] (start_state merged_target) Hb Hr)
    as (e & st1 & _ & Hl & _ & Hf).
  exists e, st1. split; [exact Hl|]. rewrite Hf. vm_compute. reflexivity.
Defined.

(** Both data rows of [acme_mapping] are accounted for. *)
Lemma acme_rows_accounted :
  filled (final_state (mapping_loop repr_sample two acme_records acme_mapping
                         (data_rows acme_mapping) (start_state merged_target)))
  + Z.of_nat
      (length
         (missing_keys
            (final_state
               (mapping_loop repr_sample two acme_records acme_mapping
                  (data_rows acme_mapping) (start_state merged_target))))) = 2.
Proof.
  assert (Hl : mapping_loop repr_sample two acme_records acme_mapping
                 (data_rows acme_mapping) (start_state merged_target) =
               Done (final_state
                       (mapping_loop repr_sample two acme_records acme_mapping
                          (data_rows acme_mapping)
                          (start_state merged_target))))
    by (vm_compute; reflexivity).
  rewrite (mapping_loop_accounts_for_present_rows repr_sample two acme_records
             acme_mapping _ _ _ Hl).
  vm_compute. reflexivity.
Defined.

(** A source sheet without keys: both mapping keys are reported. *)
Lemma keyless_source_reports_all :
  out_filled (run_etl repr_sample {["S" := zero_key_source]}
                {["Sheet1" := acme_mapping]} {["T" := merged_target]}
                "S" "T" two) = 0 /\
  out_missing (run_etl repr_sample {["S" := zero_key_source]}
                 {["Sheet1" := acme_mapping]} {["T" := merged_target]}
                 "S" "T" two) = [VStr "ACME CORP."; VStr "Globex"].
Proof.
  assert (Hs : ({["S" := zero_key_source]} : gmap string worksheet) !! "S" =
               Some zero_key_source) by (vm_compute; reflexivity).
  assert (Hm : ({["Sheet1" := acme_mapping]} : gmap string worksheet)
                 !! "Sheet1" = Some acme_mapping) by (vm_compute; reflexivity).
  assert (Ht : ({["T" := merged_target]} : gmap string worksheet) !! "T" =
               Some merged_target) by (vm_compute; reflexivity).
  assert (Hk : forallb (fun row => negb (row_kept zero_key_source row))
                 (data_rows zero_key_source) = true)
    by (vm_compute; reflexivity).
  destruct (run_etl_without_source_keys repr_sample _ _ _ "S" "T" two
              zero_key_source acme_mapping merged_target Hs Hm Ht Hk)
    as (_ & Hf & _ & Hmiss).
  split; [exact Hf|]. rewrite Hmiss. vm_compute. reflexivity.
Defined.

(** A mapping sheet with its header only: nothing happens. *)
Lemma header_only_mapping_is_a_no_op :
  out_error (run_etl repr_sample {["S" := acme_source]}
               {["Sheet1" := header_only_mapping]} {["T" := merged_target]}
               "S" "T" two) = None /\
  out_target (run_etl repr_sample {["S" := acme_source]}
                {["Sheet1" := header_only_mapping]} {["T" := merged_target]}
                "S" "T" two) = {["T" := merged_target]}.
Proof.
  assert (Hs : ({["S" := acme_source]} : gmap string worksheet) !! "S" =
               Some acme_source) by (vm_compute; reflexivity).
  assert (Hm : ({["Sheet1" := header_only_mapping]} : gmap string worksheet)
                 !! "Sheet1" = Some header_only_mapping)
    by (vm_compute; reflexivity).
  assert (Ht : ({["T" := merged_target]} : gmap string worksheet) !! "T" =
               Some merged_target) by (vm_compute; reflexivity).
  assert (Hl : load_source repr_sample acme_source = Ok acme_records)
    by (vm_compute; reflexivity).
  assert (Hc : forall k, is_Some (cells header_only_mapping !! k) -> k.1 <= 1).
  { intros k [v Hv]. unfold header_only_mapping, sheet_of in Hv.
    cbn [cells list_to_map foldr fst snd] in Hv.
    apply lookup_insert_Some in Hv as [[<- _]|[_ Hv]]; [cbn; lia|].
    apply lookup_insert_Some in Hv as [[<- _]|[_ Hv]]; [cbn; lia|].
    rewrite lookup_empty in Hv. discriminate. }
  destruct (run_etl_header_only_mapping repr_sample _ _ _ "S" "T" two
              acme_source header_only_mapping merged_target acme_records
              Hs Hm Ht Hl Hc) as (He & _ & _ & Hw).
  split; assumption.
Defined.

(** "Acme " followed by "Corp". *)
Lemma normalize_acme_corp :
  normalize repr_sample (VStr ("Acme " +:+ "Corp")) =
  normalize repr_sample (VStr "Acme ") +:+
  normalize repr_sample (VStr "Corp").
Proof. apply (normalize_app repr_sample "Acme " "Corp"). reflexivity. Defined.

(** The space in "ACME CORP." does not count. *)
Lemma normalize_drops_space :
  normalize repr_sample (VStr ("ACME" +:+ String " " "CORP.")) =
  normalize repr_sample (VStr ("ACME" +:+ "CORP.")).
Proof.
  destruct (normalize_ignores_case_and_separators repr_sample "ACME" "CORP."
              " " eq_refl eq_refl) as [_ H].
  apply H; reflexivity.
Defined.

(** "ACME CORP." and "Acme Corp" normalise alike, so row 2 is matched. *)
Lemma acme_row_is_matched :
  exists m,
    classify repr_sample acme_records acme_mapping 2 = Matched m /\
    key_match (normalize repr_sample (cell_value acme_mapping col_A 2)) m
      = true /\
    missing_keys
      (final_state (process_row repr_sample two acme_records acme_mapping
                      (start_state merged_target) 2)) =
    missing_keys (start_state merged_target).
Proof.
  assert (Hb : both_present acme_mapping 2 = true)
    by (vm_compute; reflexivity).
  assert (Hk : norm_key {| raw_key := "Acme Corp"; norm_key := "acmecorp";
                           current := S754_finite false 7036874417766400 (-46);
                           previous := S754_finite false 7036874417766400 (-45) |}
               = normalize repr_sample (cell_value acme_mapping col_A 2))
    by (vm_compute; reflexivity).
  exact (equal_normalized_keys_match repr_sample two acme_records acme_mapping
           (start_state merged_target) 2 _ Hb (or_introl eq_refl) Hk).
Defined.

(** G5 and J5 of [merged_target] can be written in either order. *)
Lemma write_g5_j5_either_order :
  (ws1 ← write_to_cell merged_target col_G 5 (VInt 200);
   write_to_cell ws1 col_J 5 (VInt 400)) =
  (ws2 ← write_to_cell merged_target col_J 5 (VInt 400);
   write_to_cell ws2 col_G 5 (VInt 200)).
Proof.
  apply write_to_cell_commute. intros H. vm_compute in H. discriminate H.
Defined.

(** 100 times the factor 2 is 200. *)
Lemma hundred_times_two :
  exists x factor,
    to_number (VInt 100) = Ok x /\ Float.of_int 2 = Ok factor /\
    scaled factor x = Ok (100 * 2) /\
    (2 = 1 -> Float.round x = Ok 100).
Proof.
  apply (integer_product_is_exact 100 2); vm_compute; discriminate.
Defined.

(** The text "1234" coerces like the number 1234. *)
Lemma text_1234_like_number :
  to_number (VStr (py_str repr_sample (VInt 1234))) = to_number (VInt 1234).
Proof.
  apply (to_number_of_int_text repr_sample 1234). vm_compute. discriminate.
Defined.


(** The unresolved key of [acme_mapping] is "Globex". *)
Lemma acme_missing_keys :
  missing_keys
    (final_state (mapping_loop repr_sample two acme_records acme_mapping
                    (data_rows acme_mapping) (start_state merged_target))) =
  [VStr "Globex"].
Proof.
  assert (Hl : mapping_loop repr_sample two acme_records acme_mapping
                 (data_rows acme_mapping) (start_state merged_target) =
               Done (final_state
                       (mapping_loop repr_sample two acme_records acme_mapping
                          (data_rows acme_mapping)
                          (start_state merged_target))))
    by (vm_compute; reflexivity).
  rewrite (missing_keys_in_row_order repr_sample two acme_records
             acme_mapping _ _ _ Hl).
  vm_compute. reflexivity.
Defined.

(** The float 5.0 as a target row is row 5. *)
Lemma float_five_is_row_five :
  exists x, Float.of_int 5 = Ok x /\ py_int (VFloat x) = Ok 5.
Proof. apply (py_int_of_integral_float 5). vm_compute. discriminate. Defined.

(** Writing G6 and then G5 of [merged_target], twice over. *)
Lemma writes_repeat_without_change :
  (ws1 ← write_all merged_target [(col_G, 6, VInt 1); (col_G, 5, VInt 2)];
   write_all ws1 [(col_G, 6, VInt 1); (col_G, 5, VInt 2)]) =
  Ok (set_cell merged_target 5 7 (VInt 2)).
Proof.
  assert (Hw : write_all merged_target
                 [(col_G, 6, VInt 1); (col_G, 5, VInt 2)] =
               Ok (set_cell merged_target 5 7 (VInt 2)))
    by (vm_compute; reflexivity).
  exact (write_all_twice _ _ _ Hw).
Defined.

(** Running the scenario again on its own result changes nothing. *)
Lemma acme_run_again :
  out_target
    (run_etl repr_sample {["S" := acme_source]} {["Sheet1" := acme_mapping]}
       (out_target (acme_run repr_sample)) "S" "T" two) =
  out_target (acme_run repr_sample).
Proof.
  assert (He : out_error
                 (run_etl repr_sample {["S" := acme_source]}
                    {["Sheet1" := acme_mapping]} {["T" := merged_target]}
                    "S" "T" two) = None) by (vm_compute; reflexivity).
  destruct (run_etl_again repr_sample _ _ _ "S" "T" two He) as (_ & Ht & _).
  exact Ht.
Defined.

(** The scenario run: the row of "ACME CORP." puts 200 in G5 and 400 in J5
    of the target, and "Globex" is unresolved. *)
Lemma acme_run_fills_one_row :
  out_error (acme_run repr_sample) = None /\
  out_filled (acme_run repr_sample) = 1 /\
  out_missing (acme_run repr_sample) = [VStr "Globex"] /\
  exists ws',
    out_target (acme_run repr_sample) =
      <["T" := ws']> {["T" := merged_target]} /\
    cells ws' !! (5, 7) = Some (VInt 200) /\
    cells ws' !! (5, 10) = Some (VInt 400) /\
    cells ws' !! (6, 7) = None.
Proof.
  assert (Hload : load_source repr_sample acme_source = Ok acme_records)
    by (vm_compute; reflexivity).
  assert (Hrows : forallb (row_writable repr_sample two acme_records
                             acme_mapping) (data_rows acme_mapping) = true)
    by (vm_compute; reflexivity).
  assert (Hs : ({["S" := acme_source]} : gmap string worksheet) !! "S" =
               Some acme_source) by (vm_compute; reflexivity).
  assert (Hm : ({["Sheet1" := acme_mapping]} : gmap string worksheet)
                 !! "Sheet1" = Some acme_mapping) by (vm_compute; reflexivity).
  assert (Ht : ({["T" := merged_target]} : gmap string worksheet) !! "T" =
               Some merged_target) by (vm_compute; reflexivity).
  destruct (etl_fills_matched_rows repr_sample _ _ _ "S" "T" two
              acme_source acme_mapping merged_target acme_records
              Hs Hm Ht Hload Hrows)
    as (He & (ws' & Hout & _ & Hcells) & _ & Hf & Hmiss).
  unfold acme_run. split; [exact He|].
  split; [rewrite Hf; vm_compute; reflexivity|].
  split; [rewrite Hmiss; vm_compute; reflexivity|].
  exists ws'. split; [exact Hout|].
  rewrite !Hcells. repeat split; vm_compute; reflexivity.
Defined.

(** The text of 1234 converts back to 1234. *)
Lemma text_1234_is_row_1234 :
  py_int (VStr (py_str repr_sample (VInt 1234))) = Ok 1234.
Proof.
  apply py_int_of_int_text. vm_compute. reflexivity.
Defined.
